(** * The resource type registry of [internal/resource/registry.go]

    A shallow embedding of the type registry (type-key syntax, [Register],
    [Resolve], [Types], [ToGVK], [ParseGVK]) together with the read
    orchestration that the gRPC resource service builds on it.

    Go strings are byte sequences; they are modelled by [string], whose
    characters are the bytes.  The registry's reader/writer lock makes every
    method body atomic, so a registry is modelled by the value of its
    [registrations] map and methods by functions on it. *)

From Stdlib Require Import Ascii String Bool Arith Lia.
From stdpp Require Import base option list strings pretty gmap fin_maps.

Local Open Scope string_scope.

(** ** Regular expressions

    [regexp.MustCompile] is used with three patterns, all of the shape
    [^ ... $].  Go's [$] (without the [m] flag) matches at the end of the
    text only, so [MatchString] on such a pattern asks whether the whole
    string belongs to the language of the part between the anchors.  The
    patterns are kept as syntax trees and matched by derivatives. *)

Inductive regex : Type :=
| Void : regex
| Eps : regex
| Class : (ascii -> bool) -> regex
| Seq : regex -> regex -> regex
| Alt : regex -> regex -> regex
| Star : regex -> regex.

(** [r+] and [r?] of the concrete syntax. *)
Definition Plus (r : regex) : regex := Seq r (Star r).
Definition Opt (r : regex) : regex := Alt r Eps.

Fixpoint nullable (r : regex) : bool :=
  match r with
  | Void => false
  | Eps => true
  | Class _ => false
  | Seq a b => nullable a && nullable b
  | Alt a b => nullable a || nullable b
  | Star _ => true
  end.

Fixpoint deriv (c : ascii) (r : regex) : regex :=
  match r with
  | Void => Void
  | Eps => Void
  | Class p => if p c then Eps else Void
  | Seq a b =>
      if nullable a then Alt (Seq (deriv c a) b) (deriv c b)
      else Seq (deriv c a) b
  | Alt a b => Alt (deriv c a) (deriv c b)
  | Star a => Seq (deriv c a) (Star a)
  end.

Fixpoint MatchString (r : regex) (s : string) : bool :=
  match s with
  | EmptyString => nullable r
  | String c s' => MatchString (deriv c r) s'
  end.

(** Character classes.  [\d] is the ASCII digits in Go's RE2 syntax. *)
Definition inRange (lo hi : ascii) (c : ascii) : bool :=
  Nat.leb (nat_of_ascii lo) (nat_of_ascii c) && Nat.leb (nat_of_ascii c) (nat_of_ascii hi).

Definition lower : ascii -> bool := inRange "a"%char "z"%char.
Definition upper : ascii -> bool := inRange "A"%char "Z"%char.
Definition digit : ascii -> bool := inRange "0"%char "9"%char.
Definition isChar (x : ascii) (c : ascii) : bool := Ascii.eqb x c.
Definition orClass (p q : ascii -> bool) (c : ascii) : bool := p c || q c.

(** [^[a-z][a-z\d_]+$] *)
Definition groupRegexp : regex :=
  Seq (Class lower) (Plus (Class (orClass lower (orClass digit (isChar "_"%char))))).

(** [^v([a-z\d]+)?\d$] *)
Definition groupVersionRegexp : regex :=
  Seq (Class (isChar "v"%char))
      (Seq (Opt (Plus (Class (orClass lower digit)))) (Class digit)).

(** [^[A-Z][A-Za-z\d]+$] *)
Definition kindRegexp : regex :=
  Seq (Class upper) (Plus (Class (orClass upper (orClass lower digit)))).

(** ** Type keys *)

(** [pbresource.Type]: the GVK triple.  The Go code reaches it through a
    pointer that it dereferences unconditionally; the model takes the
    pointer to be non-nil. *)
Record pbType : Type := mkType {
  Group : string;
  GroupVersion : string;
  Kind : string
}.

Global Instance pbType_eq_dec : EqDecision pbType.
Proof. solve_decision. Defined.

Definition validType (typ : pbType) : bool :=
  MatchString groupRegexp (Group typ)
  && MatchString groupVersionRegexp (GroupVersion typ)
  && MatchString kindRegexp (Kind typ).

(** [fmt.Sprintf("%s.%s.%s", ...)]: the [%s] verb copies its operand. *)
Definition ToGVK (resourceType : pbType) : string :=
  Group resourceType +:+ "." +:+ GroupVersion resourceType +:+ "." +:+ Kind resourceType.

(** [strings.Split(s, sep)] for a one-byte separator: the pieces between
    consecutive occurrences, of which there is always at least one. *)
Fixpoint Split (s : string) (sep : ascii) : list string :=
  match s with
  | EmptyString => [EmptyString]
  | String c s' =>
      if Ascii.eqb c sep then EmptyString :: Split s' sep
      else match Split s' sep with
           | p :: ps => String c p :: ps
           | [] => [String c EmptyString]
           end
  end.

(** The value built by [fmt.Errorf] in [ParseGVK]. *)
Definition gvkFormError (gvk : string) : string :=
  "GVK string must be in the form <Group>.<GroupVersion>.<Kind>, got: " +:+ gvk.

Definition ParseGVK (gvk : string) : pbType + string :=
  let parts := Split gvk "."%char in
  match parts with
  | [g; v; k] => inl {| Group := g; GroupVersion := v; Kind := k |}
  | _ => inr (gvkFormError gvk)
  end.

Definition demoV2Artist : pbType := mkType "demo" "v2" "Artist".

(** ** Collaborators of the registry

    The authorizer ([acl.Authorizer]), its context and the protobuf
    messages live in other packages.  They are kept as small records that
    carry what the registry and its hooks touch. *)

(** Go's [error] values, by the classes the registry's callers tell apart.
    A [nil] error is [None] of [option error]. *)
Inductive error : Type :=
| ErrPermissionDenied : error
| ErrNeedData : error
| ErrOther : string -> error.

Global Instance error_eq_dec : EqDecision error.
Proof. solve_decision. Defined.

(** [acl.AuthorizerContext]: the enterprise-meta fields an authorizer is
    asked about; [&acl.AuthorizerContext{}] is [emptyAuthorizerContext]. *)
Record AuthorizerContext : Type := mkAuthorizerContext {
  ctxPartition : string;
  ctxNamespace : string;
  ctxPeer : string
}.

Definition emptyAuthorizerContext : AuthorizerContext :=
  mkAuthorizerContext "" "" "".

(** [authz.ToAllowAuthorizer()]: the two capability checks the default
    hooks use; each returns [nil] or a permission-denied error. *)
Record Authorizer : Type := mkAuthorizer {
  OperatorReadAllowed : AuthorizerContext -> option error;
  OperatorWriteAllowed : AuthorizerContext -> option error
}.

(** [pbresource.Tenancy], [pbresource.ID] and [pbresource.Resource]. *)
Record Tenancy : Type := mkTenancy {
  Partition : string;
  Namespace : string;
  PeerName : string
}.

Record ID : Type := mkID {
  idType : option pbType;
  idTenancy : option Tenancy;
  Name : string;
  Uid : string
}.

Record Resource : Type := mkResource {
  Id : ID;
  Version : string;
  Data : string
}.

(** [proto.Message]: the registry only stores it. *)
Inductive Message : Type :=
| TombstoneMessage : Message
| NamedMessage : string -> Message.

(** Modelled from the spec: the [Scope] type is declared outside
    registry.go.  The spec lists the three scopes; [ScopeUndefined] stands
    for the zero value that a [Registration] literal without a [Scope]
    field carries. *)
Inductive Scope : Type :=
| ScopeUndefined : Scope
| ClusterScope : Scope
| PartitionScope : Scope
| NamespaceScope : Scope.

(** ** Registrations and hooks *)

Definition ValidationHook : Type := Resource -> option error.

(** A mutation hook may rewrite the resource it is handed: it returns the
    resource as it leaves it, and its error. *)
Definition MutationHook : Type := Resource -> Resource * option error.

Definition ACLAuthorizeReadHook : Type :=
  Authorizer -> AuthorizerContext -> ID -> option error.
Definition ACLAuthorizeWriteHook : Type :=
  Authorizer -> AuthorizerContext -> Resource -> option error.
Definition ACLAuthorizeListHook : Type :=
  Authorizer -> AuthorizerContext -> option error.

(** A [nil] function value is [None]. *)
Record ACLHooks : Type := mkACLHooks {
  Read : option ACLAuthorizeReadHook;
  Write : option ACLAuthorizeWriteHook;
  List : option ACLAuthorizeListHook
}.

Record Registration : Type := mkRegistration {
  Type_ : pbType;
  Proto : Message;
  ACLs : option ACLHooks;
  Validate : option ValidationHook;
  Mutate : option MutationHook;
  scope : Scope
}.

(** The function literals that [Register] installs. *)
Definition defaultRead : ACLAuthorizeReadHook :=
  fun authz authzContext id => OperatorReadAllowed authz authzContext.

Definition defaultWrite : ACLAuthorizeWriteHook :=
  fun authz authzContext id => OperatorWriteAllowed authz authzContext.

Definition defaultList : ACLAuthorizeListHook :=
  fun authz authzContext => OperatorReadAllowed authz emptyAuthorizerContext.

Definition defaultValidate : ValidationHook := fun resource => None.

Definition defaultMutate : MutationHook := fun resource => (resource, None).

(** ** The registry *)

Record TypeRegistry : Type := mkTypeRegistry {
  registrations : gmap string Registration
}.

(** What a [panic] carries.  The messages built with the [%q] verb are kept
    as the format together with its operand: [%q] is [strconv.Quote], whose
    escaping is not needed to tell the messages apart. *)
Inductive PanicValue : Type :=
| PanicString : string -> PanicValue
| PanicSprintf : string -> string -> PanicValue.

Inductive Outcome (A : Type) : Type :=
| Returned : A -> Outcome A
| Panicked : PanicValue -> Outcome A.
Arguments Returned {A} _.
Arguments Panicked {A} _.

Definition emptyString (s : string) : bool := String.eqb s "".

(** The hook defaulting of [Register], one [if] after the other.  The Go
    code writes the defaults through the [ACLs] pointer, so a caller that
    keeps the pointer sees them too; the registry itself only reads the
    hooks back from its map, which is what is modelled. *)
Definition setDefaultACLs (registration : Registration) : ACLHooks :=
  let acls := match ACLs registration with
              | None => mkACLHooks None None None
              | Some hooks => hooks
              end in
  let acls := match Read acls with
              | None => mkACLHooks (Some defaultRead) (Write acls) (List acls)
              | Some _ => acls
              end in
  let acls := match Write acls with
              | None => mkACLHooks (Read acls) (Some defaultWrite) (List acls)
              | Some _ => acls
              end in
  let acls := match List acls with
              | None => mkACLHooks (Read acls) (Write acls) (Some defaultList)
              | Some _ => acls
              end in
  acls.

Definition setDefaults (registration : Registration) : Registration :=
  let acls := setDefaultACLs registration in
  let validate := match Validate registration with
                  | None => Some defaultValidate
                  | Some v => Some v
                  end in
  let mutate := match Mutate registration with
                | None => Some defaultMutate
                | Some m => Some m
                end in
  {| Type_ := Type_ registration;
     Proto := Proto registration;
     ACLs := Some acls;
     Validate := validate;
     Mutate := mutate;
     scope := scope registration |}.

Definition groupFormat : string :=
  "Type.Group must be in snake_case. Got: %q".
Definition groupVersionFormat : string :=
  "Type.GroupVersion must be lowercase, start with `v`, and end with a number (e.g. `v2` or `v1alpha1`). Got: %q".
Definition kindFormat : string :=
  "Type.Kind must be in PascalCase. Got: %q".

Definition Register (r : TypeRegistry) (registration : Registration)
  : Outcome TypeRegistry :=
  let typ := Type_ registration in
  if emptyString (Group typ) || emptyString (GroupVersion typ) || emptyString (Kind typ)
  then Panicked (PanicString "type field(s) cannot be empty")
  else if negb (MatchString groupRegexp (Group typ))
  then Panicked (PanicSprintf groupFormat (Group typ))
  else if negb (MatchString groupVersionRegexp (GroupVersion typ))
  then Panicked (PanicSprintf groupVersionFormat (Group typ))
  else if negb (MatchString kindRegexp (Kind typ))
  then Panicked (PanicSprintf kindFormat (Kind typ))
  else
    let key := ToGVK (Type_ registration) in
    match registrations r !! key with
    | Some _ =>
        Panicked (PanicString ("resource type " +:+ key +:+ " already registered"))
    | None =>
        Returned (mkTypeRegistry (<[key := setDefaults registration]> (registrations r)))
    end.

Definition Resolve (r : TypeRegistry) (typ : pbType) : option Registration :=
  registrations r !! ToGVK typ.

(** Go iterates a map in an unspecified order; the list below fixes one,
    and nothing proved about [Types] depends on it. *)
Definition Types (r : TypeRegistry) : list Registration :=
  (map_to_list (registrations r)).*2.

(** [NewRegistry]; the constant [TypeV1Tombstone] is declared in another
    file of the package and is taken as a parameter. *)
Definition tombstoneRegistration (TypeV1Tombstone : pbType) : Registration :=
  {| Type_ := TypeV1Tombstone;
     Proto := TombstoneMessage;
     ACLs := None;
     Validate := None;
     Mutate := None;
     scope := ScopeUndefined |}.

Definition NewRegistry (TypeV1Tombstone : pbType) : Outcome TypeRegistry :=
  Register (mkTypeRegistry ∅) (tombstoneRegistration TypeV1Tombstone).

(** The registries a caller can hold: the one [NewRegistry] returns, and
    those obtained from it by [Register] calls that return. *)
Inductive reachable (TypeV1Tombstone : pbType) : TypeRegistry -> Prop :=
| reach_new r :
    NewRegistry TypeV1Tombstone = Returned r ->
    reachable TypeV1Tombstone r
| reach_register r registration r' :
    reachable TypeV1Tombstone r ->
    Register r registration = Returned r' ->
    reachable TypeV1Tombstone r'.

(** ** The read orchestration

    The gRPC [Read] endpoint is exercised by read_test.go; its body, the
    tenancy validator and the consistency selector are declared in files
    outside the sources covered here, so the definitions of this part
    follow the specification of the read pipeline. *)

(** The gRPC status codes the pipeline produces. *)
Inductive Code : Type :=
| OK : Code
| InvalidArgument : Code
| NotFound : Code
| PermissionDenied : Code
| Unavailable : Code
| Internal : Code.

Global Instance Code_eq_dec : EqDecision Code.
Proof. solve_decision. Defined.

Record Status : Type := mkStatus {
  code : Code;
  message : string
}.

(** [storage.ReadConsistency]. *)
Inductive ReadConsistency : Type :=
| EventualConsistency : ReadConsistency
| StrongConsistency : ReadConsistency.

(** Modelled from the spec: the caller's declared read-consistency
    preference, which is either left unspecified or signalled as strong
    out of band on the request. *)
Inductive ConsistencyPreference : Type :=
| PreferenceUnspecified : ConsistencyPreference
| PreferenceStrong : ConsistencyPreference.

(** Modelled from the spec: the consistency selector, missing from the
    sources covered here.  It maps the
    preference to one of exactly two backend modes, eventual when nothing
    is specified. *)
Definition readConsistencyFrom (p : ConsistencyPreference) : ReadConsistency :=
  match p with
  | PreferenceUnspecified => EventualConsistency
  | PreferenceStrong => StrongConsistency
  end.

(** Modelled from the spec: the storage backend contract
    [Read(identity, consistency) -> (record, error{NotFound, Unavailable, Internal})]. *)
Inductive BackendErrorClass : Type :=
| ErrNotFound : BackendErrorClass
| ErrUnavailable : BackendErrorClass
| ErrInternal : BackendErrorClass.

Record BackendError : Type := mkBackendError {
  errClass : BackendErrorClass;
  errMessage : string
}.

Definition Backend : Type := ReadConsistency -> ID -> Resource + BackendError.

(** One call of the backend's [Read], as the mock backend of the tests
    records it. *)
Record BackendCall : Type := mkBackendCall {
  callConsistency : ReadConsistency;
  callId : ID
}.

(** Modelled from the spec: a backend error is surfaced as the equivalent
    class, with the backend's own message. *)
Definition statusOfBackendError (e : BackendError) : Status :=
  match errClass e with
  | ErrNotFound => mkStatus NotFound (errMessage e)
  | ErrUnavailable => mkStatus Unavailable (errMessage e)
  | ErrInternal => mkStatus Internal (errMessage e)
  end.

Record ReadRequest : Type := mkReadRequest {
  reqId : option ID
}.

(** A nil [Tenancy] reads as the empty one, as protobuf getters do. *)
Definition tenancyOf (id : ID) : Tenancy :=
  match idTenancy id with
  | Some t => t
  | None => mkTenancy "" "" ""
  end.

(** Modelled from the spec: the tenancy/scope validator, a pure function
    of the identity and the scope of its kind.  It rejects a populated
    field that the scope forbids, and nothing else. *)
Definition validateScopedTenancy (id : ID) (sc : Scope) : option Status :=
  let t := tenancyOf id in
  match sc with
  | ClusterScope =>
      if negb (emptyString (Partition t))
      then Some (mkStatus InvalidArgument "cluster scoped resource cannot have a partition")
      else if negb (emptyString (Namespace t))
      then Some (mkStatus InvalidArgument "cluster scoped resource cannot have a namespace")
      else None
  | PartitionScope =>
      if negb (emptyString (Namespace t))
      then Some (mkStatus InvalidArgument "partition scoped resource cannot have a namespace")
      else None
  | NamespaceScope => None
  | ScopeUndefined => None
  end.

(** Modelled from the spec: structural validation of a read request. The
    identity must be present, with a type and a non-empty name. *)
Definition validateId (req : ReadRequest) : Status + (ID * pbType) :=
  match reqId req with
  | None => inl (mkStatus InvalidArgument "id is required")
  | Some id =>
      match idType id with
      | None => inl (mkStatus InvalidArgument "id.type is required")
      | Some typ =>
          if emptyString (Name id)
          then inl (mkStatus InvalidArgument "id.name is required")
          else inr (id, typ)
      end
  end.

(** Modelled from the spec: the match by group and kind alone, and the two
    messages of a failed type resolution. *)
Definition sameGroupKind (typ : pbType) (registration : Registration) : bool :=
  String.eqb (Group (Type_ registration)) (Group typ)
  && String.eqb (Kind (Type_ registration)) (Kind typ).

Definition groupVersionMismatchMessage (requested registered : string) : string :=
  "resource was requested with GroupVersion " +:+ requested
  +:+ " but type is registered as " +:+ registered.

Definition notRegisteredMessage (typ : pbType) : string :=
  "resource type " +:+ ToGVK typ +:+ " not registered".

(** Modelled from the spec: type resolution of the read pipeline.
    Resolution is by the full type key; when it fails, the registrations
    are searched by group and kind alone to tell a kind registered under
    another GroupVersion from a kind that is not registered at all. *)
Definition resolveType (r : TypeRegistry) (typ : pbType) : Status + Registration :=
  match Resolve r typ with
  | Some registration => inr registration
  | None =>
      match List.find (sameGroupKind typ) (Types r) with
      | Some other =>
          inl (mkStatus InvalidArgument
                 (groupVersionMismatchMessage (GroupVersion typ)
                    (GroupVersion (Type_ other))))
      | None => inl (mkStatus InvalidArgument (notRegisteredMessage typ))
      end
  end.

(** The [Read] hook a registration carries, if any. *)
Definition readHookOf (registration : Registration) : option ACLAuthorizeReadHook :=
  match ACLs registration with
  | Some hooks => Read hooks
  | None => None
  end.

(** Modelled from the spec: the server behind the read pipeline.  The
    registry hook decides from the identity alone; a hook whose policy
    needs the stored record answers [ErrNeedData], and the decision is
    then taken by [DataACL] on the fetched record (the two-phase check of
    the specification). *)
Record Server : Type := mkServer {
  Registry : TypeRegistry;
  backend : Backend;
  DataACL : Registration -> Authorizer -> AuthorizerContext -> Resource -> option error
}.

(** Modelled from the spec: what the pipeline knows of the caller, that
    is the resolved authorizer with its context, and the consistency
    preference declared on the request. *)
Record Caller : Type := mkCaller {
  authz : Authorizer;
  authzContext : AuthorizerContext;
  consistency : ConsistencyPreference
}.

Definition ReadResult : Type := list BackendCall * (Status + Resource).

(** Modelled from the spec: steps 5 and 6 of the read pipeline, with the
    final decision of a data-dependent ACL taken on the fetched record. *)
Definition fetch (s : Server) (caller : Caller) (registration : Registration)
  (id : ID) (needData : bool) : ReadResult :=
  let consistency := readConsistencyFrom (consistency caller) in
  let call := mkBackendCall consistency id in
  match backend s consistency id with
  | inr e => ([call], inl (statusOfBackendError e))
  | inl resource =>
      if needData then
        match DataACL s registration (authz caller) (authzContext caller) resource with
        | None => ([call], inr resource)
        | Some ErrPermissionDenied =>
            ([call], inl (mkStatus PermissionDenied "permission denied"))
        | Some _ => ([call], inl (mkStatus Internal "failed read acl"))
        end
      else ([call], inr resource)
  end.

(** Modelled from the spec: the read pipeline, strictly ordered and
    stopping at the first failure.  The result pairs the backend calls made
    with the status or the record returned. *)
Definition ReadRPC (s : Server) (caller : Caller) (req : ReadRequest) : ReadResult :=
  match validateId req with
  | inl st => ([], inl st)
  | inr (id, typ) =>
      match resolveType (Registry s) typ with
      | inl st => ([], inl st)
      | inr registration =>
          match validateScopedTenancy id (scope registration) with
          | Some st => ([], inl st)
          | None =>
              match readHookOf registration with
              | None => ([], inl (mkStatus Internal "read hook missing"))
              | Some hook =>
                  match hook (authz caller) (authzContext caller) id with
                  | Some ErrPermissionDenied =>
                      ([], inl (mkStatus PermissionDenied "permission denied"))
                  | Some (ErrOther msg) =>
                      ([], inl (mkStatus Internal ("failed read acl: " +:+ msg)))
                  | Some ErrNeedData => fetch s caller registration id true
                  | None => fetch s caller registration id false
                  end
              end
          end
      end
  end.

(** ** Predicates used in the statements *)

(** The characters that some class of [r] accepts. *)
Fixpoint alphabet (r : regex) (c : ascii) : bool :=
  match r with
  | Void | Eps => false
  | Class p => p c
  | Seq a b | Alt a b => alphabet a c || alphabet b c
  | Star a => alphabet a c
  end.

(** Expressions that match nothing, recognised by their shape. *)
Fixpoint isVoid (r : regex) : bool :=
  match r with
  | Void => true
  | Eps | Class _ | Star _ => false
  | Seq a b => isVoid a || isVoid b
  | Alt a b => isVoid a && isVoid b
  end.

Fixpoint allChars (p : ascii -> bool) (s : string) : bool :=
  match s with
  | EmptyString => true
  | String c s' => p c && allChars p s'
  end.

Definition notDot (c : ascii) : bool := negb (Ascii.eqb c "."%char).

(** A registration all of whose hooks are set. *)
Definition hooksPresent (registration : Registration) : Prop :=
  exists rd wr ls v m,
    ACLs registration = Some (mkACLHooks (Some rd) (Some wr) (Some ls))
    /\ Validate registration = Some v
    /\ Mutate registration = Some m.

(** The registry invariant: every entry is stored under the formatted key
    of its own type, that type is well formed, and its hooks are set. *)
Definition wellFormed (r : TypeRegistry) : Prop :=
  forall key registration,
    registrations r !! key = Some registration ->
    key = ToGVK (Type_ registration)
    /\ validType (Type_ registration) = true
    /\ hooksPresent registration.

(** Some registration of the registry has the type [typ]. *)
Definition registered (r : TypeRegistry) (typ : pbType) : Prop :=
  exists registration, registration ∈ Types r /\ Type_ registration = typ.

Definition panics {A : Type} (o : Outcome A) : Prop :=
  exists v, o = Panicked v.

(** A request that gets as far as the authorization step: it is
    structurally valid, its type resolves to [registration], its tenancy
    fits the scope of the kind, and the registration carries the read hook
    [hook]. *)
Definition reachesAuthorization (s : Server) (req : ReadRequest) (id : ID)
  (registration : Registration) (hook : ACLAuthorizeReadHook) : Prop :=
  exists typ,
    validateId req = inr (id, typ)
    /\ resolveType (Registry s) typ = inr registration
    /\ validateScopedTenancy id (scope registration) = None
    /\ readHookOf registration = Some hook.

(** The tenancy fields that a scope forbids and the identity populates. *)
Definition forbiddenPopulated (id : ID) (sc : Scope) : Prop :=
  (sc = ClusterScope
   /\ (Partition (tenancyOf id) <> "" \/ Namespace (tenancyOf id) <> ""))
  \/ (sc = PartitionScope /\ Namespace (tenancyOf id) <> "").

(** Some registration has the group and the kind of [typ]. *)
Definition groupKindRegistered (r : TypeRegistry) (typ : pbType) : Prop :=
  exists registration,
    registration ∈ Types r
    /\ Group (Type_ registration) = Group typ
    /\ Kind (Type_ registration) = Kind typ.

(** ** Sample values

    The tombstone type of the repository and the kinds of the demo package
    used by the tests, for concrete instances of the statements. *)

Definition typeV1Tombstone : pbType := mkType "internal" "v1" "Tombstone".
Definition demoV1Artist : pbType := mkType "demo" "v1" "Artist".
Definition demoV1Executive : pbType := mkType "demo" "v1" "Executive".
Definition demoV1RecordLabel : pbType := mkType "demo" "v1" "RecordLabel".
Definition demoV2Unicorn : pbType := mkType "demo" "v2" "Unicorn".

(** A registration that leaves every hook to the defaults. *)
Definition plainRegistration (typ : pbType) (sc : Scope) : Registration :=
  {| Type_ := typ;
     Proto := NamedMessage (Kind typ);
     ACLs := None;
     Validate := None;
     Mutate := None;
     scope := sc |}.

(** A registration whose only hook is [Read]. *)
Definition readOnlyRegistration (typ : pbType) (sc : Scope)
  (hook : ACLAuthorizeReadHook) : Registration :=
  {| Type_ := typ;
     Proto := NamedMessage (Kind typ);
     ACLs := Some (mkACLHooks (Some hook) None None);
     Validate := None;
     Mutate := None;
     scope := sc |}.

Definition allowRead : ACLAuthorizeReadHook := fun _ _ _ => None.
Definition denyRead : ACLAuthorizeReadHook := fun _ _ _ => Some ErrPermissionDenied.
Definition needDataRead : ACLAuthorizeReadHook := fun _ _ _ => Some ErrNeedData.

(** An authorizer that holds no operator capability, and one that holds
    both. *)
Definition denyAll : Authorizer :=
  mkAuthorizer (fun _ => Some ErrPermissionDenied) (fun _ => Some ErrPermissionDenied).
Definition allowAll : Authorizer :=
  mkAuthorizer (fun _ => None) (fun _ => None).

(** The registry right after [NewRegistry]. *)
Definition bootRegistry : TypeRegistry :=
  mkTypeRegistry
    (<[ToGVK typeV1Tombstone := setDefaults (tombstoneRegistration typeV1Tombstone)]> ∅).

(** [bootRegistry] after the demo kinds are registered: artists are
    namespace scoped, record labels partition scoped with an ACL that needs
    the stored data, executives cluster scoped. *)
Definition demoRegistry : TypeRegistry :=
  mkTypeRegistry
    (<[ToGVK demoV1Executive := setDefaults (plainRegistration demoV1Executive ClusterScope)]>
     (<[ToGVK demoV1RecordLabel :=
          setDefaults (readOnlyRegistration demoV1RecordLabel PartitionScope needDataRead)]>
      (<[ToGVK demoV2Artist :=
           setDefaults (readOnlyRegistration demoV2Artist NamespaceScope allowRead)]>
       (registrations bootRegistry)))).

(** A backend that holds nothing, one that holds a record at every
    identity, and one that cannot serve the read. *)
Definition emptyBackend : Backend :=
  fun _ _ => inr (mkBackendError ErrNotFound "resource not found").
Definition fullBackend : Backend :=
  fun _ id => inl (mkResource id "1" "payload").
Definition downBackend : Backend :=
  fun _ _ => inr (mkBackendError ErrUnavailable "no leader").

(** A data check that turns every record down. *)
Definition denyData : Registration -> Authorizer -> AuthorizerContext -> Resource -> option error :=
  fun _ _ _ _ => Some ErrPermissionDenied.

Definition demoServer (b : Backend) : Server := mkServer demoRegistry b denyData.

Definition labelId : ID :=
  mkID (Some demoV1RecordLabel) (Some (mkTenancy "default" "" "local")) "blink1982" "".
Definition artistId : ID :=
  mkID (Some demoV2Artist) (Some (mkTenancy "default" "default" "local")) "moonchild" "".
Definition executiveId (t : Tenancy) : ID :=
  mkID (Some demoV1Executive) (Some t) "MusicMan" "".

Definition eventualCaller : Caller := mkCaller allowAll emptyAuthorizerContext PreferenceUnspecified.
Definition strongCaller : Caller := mkCaller allowAll emptyAuthorizerContext PreferenceStrong.

(** ** Further functions of the sources *)

(** [strings.Join(elems, sep)], which the deployer test uses to build
    names; [ToGVK] is the join of the three components with a dot. *)
Fixpoint Join (elems : list string) (sep : string) : string :=
  match elems with
  | [] => ""
  | x :: rest =>
      match rest with
      | [] => x
      | _ :: _ => x +:+ sep +:+ Join rest sep
      end
  end.

(** The number of occurrences of a byte in a string. *)
Fixpoint countChar (x : ascii) (s : string) : nat :=
  match s with
  | EmptyString => 0
  | String c s' => (if Ascii.eqb c x then 1 else 0) + countChar x s'
  end.

(** A type key none of whose components holds a dot. *)
Definition dotFree (typ : pbType) : bool :=
  allChars notDot (Group typ)
  && allChars notDot (GroupVersion typ)
  && allChars notDot (Kind typ).




(** * Properties *)

Example groupRegexp_demo : MatchString groupRegexp "demo" = true.
Proof. reflexivity. Qed.
Example groupRegexp_Bad : MatchString groupRegexp "Bad" = false.
Proof. reflexivity. Qed.
Example groupVersionRegexp_v2 : MatchString groupVersionRegexp "v2" = true.
Proof. reflexivity. Qed.
Example groupVersionRegexp_v1alpha1 : MatchString groupVersionRegexp "v1alpha1" = true.
Proof. reflexivity. Qed.
Example groupVersionRegexp_2 : MatchString groupVersionRegexp "2" = false.
Proof. reflexivity. Qed.
Example groupVersionRegexp_v : MatchString groupVersionRegexp "v" = false.
Proof. reflexivity. Qed.
Example kindRegexp_Artist : MatchString kindRegexp "Artist" = true.
Proof. reflexivity. Qed.
Example kindRegexp_bad : MatchString kindRegexp "bad" = false.
Proof. reflexivity. Qed.
Example Split_three : Split "demo.v2.Artist" "."%char = ["demo"; "v2"; "Artist"].
Proof. reflexivity. Qed.
Example Split_empty : Split "" "."%char = [""].
Proof. reflexivity. Qed.
Example Split_dots : Split ".." "."%char = [""; ""; ""].
Proof. reflexivity. Qed.

(** ** Regular expressions: the characters a match is made of *)

Lemma isVoid_not_nullable r : isVoid r = true -> nullable r = false.
Proof.
  induction r as [| |p|a IHa b IHb|a IHa b IHb|a IHa]; simpl; try discriminate; auto.
  - intros [Ha|Hb]%orb_true_iff.
    + rewrite (IHa Ha). reflexivity.
    + rewrite (IHb Hb). apply andb_false_r.
  - intros [Ha Hb]%andb_true_iff. rewrite (IHa Ha), (IHb Hb). reflexivity.
Qed.

Lemma isVoid_deriv c r : isVoid r = true -> isVoid (deriv c r) = true.
Proof.
  induction r as [| |p|a IHa b IHb|a IHa b IHb|a IHa]; simpl; try discriminate; auto.
  - intros [Ha|Hb]%orb_true_iff.
    + rewrite (isVoid_not_nullable a Ha). simpl. rewrite (IHa Ha). reflexivity.
    + destruct (nullable a); simpl; rewrite ?(IHb Hb), Hb, ?orb_true_r; reflexivity.
  - intros [Ha Hb]%andb_true_iff. rewrite (IHa Ha), (IHb Hb). reflexivity.
Qed.

Lemma isVoid_no_match s : forall r, isVoid r = true -> MatchString r s = false.
Proof.
  induction s as [|c s IH]; intros r Hr; simpl.
  - apply isVoid_not_nullable, Hr.
  - apply IH, isVoid_deriv, Hr.
Qed.

Lemma deriv_outside_alphabet c r : alphabet r c = false -> isVoid (deriv c r) = true.
Proof.
  induction r as [| |p|a IHa b IHb|a IHa b IHb|a IHa]; simpl; auto.
  - intros ->. reflexivity.
  - intros [Ha Hb]%orb_false_iff.
    destruct (nullable a); simpl; rewrite (IHa Ha), ?(IHb Hb); reflexivity.
  - intros [Ha Hb]%orb_false_iff. rewrite (IHa Ha), (IHb Hb). reflexivity.
  - intros Ha. rewrite (IHa Ha). reflexivity.
Qed.

Lemma alphabet_deriv c d r : alphabet (deriv c r) d = true -> alphabet r d = true.
Proof.
  induction r as [| |p|a IHa b IHb|a IHa b IHb|a IHa]; simpl; try discriminate.
  - destruct (p c); discriminate.
  - destruct (nullable a); simpl; rewrite !orb_true_iff; intuition.
  - rewrite !orb_true_iff; intuition.
  - rewrite !orb_true_iff; intuition.
Qed.

Lemma allChars_weaken (p q : ascii -> bool) s :
  (forall c, p c = true -> q c = true) -> allChars p s = true -> allChars q s = true.
Proof.
  intros Hpq. induction s as [|c s IH]; simpl; [reflexivity|].
  intros [Hc Hs]%andb_true_iff. rewrite (Hpq c Hc), (IH Hs). reflexivity.
Qed.

(** Every character of a matched string is accepted by some class of the
    expression. *)
Lemma MatchString_alphabet s : forall r,
  MatchString r s = true -> allChars (alphabet r) s = true.
Proof.
  induction s as [|c s IH]; intros r Hm; simpl; [reflexivity|].
  simpl in Hm. apply andb_true_iff; split.
  - destruct (alphabet r c) eqn:Hc; [reflexivity|].
    rewrite (isVoid_no_match s _ (deriv_outside_alphabet c r Hc)) in Hm. discriminate.
  - apply (allChars_weaken (alphabet (deriv c r))); [|apply IH, Hm].
    intros d. apply alphabet_deriv.
Qed.

Lemma alphabet_notDot r s :
  alphabet r "."%char = false -> MatchString r s = true -> allChars notDot s = true.
Proof.
  intros Hdot Hm. apply (allChars_weaken (alphabet r)); [|apply MatchString_alphabet, Hm].
  intros c Hc. unfold notDot. destruct (Ascii.eqb_spec c "."%char) as [->|]; [|reflexivity].
  rewrite Hdot in Hc. discriminate.
Qed.

(** ** [Split] on strings without the separator *)

Lemma Split_nonempty s sep : Split s sep <> [].
Proof.
  destruct s as [|c s]; simpl; [discriminate|].
  destruct (Ascii.eqb c sep); [discriminate|].
  destruct (Split s sep); discriminate.
Qed.

Lemma Split_prefix a b :
  allChars notDot a = true ->
  Split (a +:+ String "."%char b) "."%char = a :: Split b "."%char.
Proof.
  induction a as [|c a IH]; simpl; [reflexivity|].
  intros [Hc Ha]%andb_true_iff. unfold notDot in Hc.
  destruct (Ascii.eqb c "."%char); [discriminate|].
  rewrite (IH Ha). reflexivity.
Qed.

Lemma Split_single a :
  allChars notDot a = true -> Split a "."%char = [a].
Proof.
  induction a as [|c a IH]; simpl; [reflexivity|].
  intros [Hc Ha]%andb_true_iff. unfold notDot in Hc.
  destruct (Ascii.eqb c "."%char); [discriminate|].
  rewrite (IH Ha). reflexivity.
Qed.

Lemma validType_parts typ :
  validType typ = true ->
  MatchString groupRegexp (Group typ) = true
  /\ MatchString groupVersionRegexp (GroupVersion typ) = true
  /\ MatchString kindRegexp (Kind typ) = true.
Proof.
  unfold validType. rewrite !andb_true_iff. tauto.
Qed.

Lemma ParseGVK_ToGVK typ : validType typ = true -> ParseGVK (ToGVK typ) = inl typ.
Proof.
  intros (Hg & Hv & Hk)%validType_parts.
  apply (alphabet_notDot groupRegexp) in Hg; [|reflexivity].
  apply (alphabet_notDot groupVersionRegexp) in Hv; [|reflexivity].
  apply (alphabet_notDot kindRegexp) in Hk; [|reflexivity].
  unfold ParseGVK, ToGVK. destruct typ as [g v k]; simpl in *.
  change ("." +:+ v +:+ "." +:+ k) with (String "."%char (v +:+ String "."%char k)).
  rewrite (Split_prefix g _ Hg), (Split_prefix v _ Hv), (Split_single k Hk).
  reflexivity.
Qed.

Lemma ToGVK_inj t1 t2 :
  validType t1 = true -> validType t2 = true -> ToGVK t1 = ToGVK t2 -> t1 = t2.
Proof.
  intros H1 H2 Heq. apply ParseGVK_ToGVK in H1, H2.
  rewrite Heq in H1. congruence.
Qed.

(** C8. For every type key whose components satisfy their syntax, parsing
    the formatted key gives the key back; [{demo, v2, Artist}] formats to
    [demo.v2.Artist]; and [ParseGVK] fails exactly when its input does not
    split into three dot-separated parts: when it does, the parts are
    returned as they are, empty or ill-formed ones included. *)
Theorem ParseGVK_roundtrip :
  (forall typ, validType typ = true -> ParseGVK (ToGVK typ) = inl typ)
  /\ ToGVK demoV2Artist = "demo.v2.Artist"
  /\ (forall gvk, (exists e, ParseGVK gvk = inr e) <-> length (Split gvk "."%char) <> 3)
  /\ (forall gvk g v k, Split gvk "."%char = [g; v; k] -> ParseGVK gvk = inl (mkType g v k))
  /\ ParseGVK ".." = inl (mkType "" "" "")
  /\ ParseGVK "Bad.2.bad" = inl (mkType "Bad" "2" "bad").
Proof.
  split; [exact ParseGVK_ToGVK|].
  split; [reflexivity|].
  split; [|split; [|split; reflexivity]].
  - intros gvk. unfold ParseGVK.
    destruct (Split gvk "."%char) as [|g [|v [|k [|x l]]]]; simpl; split;
      intros H; try discriminate; eauto.
    + destruct H as [e He]. discriminate.
    + exfalso. apply H. reflexivity.
  - intros gvk g v k H. unfold ParseGVK. rewrite H. reflexivity.
Qed.

Lemma ParseGVK_roundtrip_witness :
  validType demoV2Artist = true /\ ParseGVK (ToGVK demoV2Artist) = inl demoV2Artist.
Proof.
  split; [reflexivity|].
  apply (proj1 ParseGVK_roundtrip). reflexivity.
Defined.

(** ** [Register] *)

Lemma MatchString_nonempty r s :
  nullable r = false -> MatchString r s = true -> emptyString s = false.
Proof.
  intros Hn Hm. destruct s as [|c s]; [|reflexivity].
  simpl in Hm. congruence.
Qed.

Lemma Register_valid r registration :
  validType (Type_ registration) = true ->
  Register r registration =
    match registrations r !! ToGVK (Type_ registration) with
    | Some _ =>
        Panicked (PanicString
          ("resource type " +:+ ToGVK (Type_ registration) +:+ " already registered"))
    | None =>
        Returned (mkTypeRegistry
          (<[ToGVK (Type_ registration) := setDefaults registration]> (registrations r)))
    end.
Proof.
  intros (Hg & Hv & Hk)%validType_parts. unfold Register.
  rewrite (MatchString_nonempty groupRegexp _ eq_refl Hg).
  rewrite (MatchString_nonempty groupVersionRegexp _ eq_refl Hv).
  rewrite (MatchString_nonempty kindRegexp _ eq_refl Hk).
  rewrite Hg, Hv, Hk. reflexivity.
Qed.

Lemma Register_invalid r registration :
  validType (Type_ registration) = false -> panics (Register r registration).
Proof.
  unfold validType, Register, panics. intros Hinv.
  destruct (emptyString _ || emptyString _ || emptyString _); [eauto|].
  destruct (MatchString groupRegexp _); simpl in *; [|eauto].
  destruct (MatchString groupVersionRegexp _); simpl in *; [|eauto].
  destruct (MatchString kindRegexp _); simpl in *; [discriminate|eauto].
Qed.

Lemma Register_returned r registration r' :
  Register r registration = Returned r' ->
  validType (Type_ registration) = true
  /\ registrations r !! ToGVK (Type_ registration) = None
  /\ r' = mkTypeRegistry
            (<[ToGVK (Type_ registration) := setDefaults registration]> (registrations r)).
Proof.
  intros Hret. destruct (validType (Type_ registration)) eqn:Hval.
  - rewrite (Register_valid _ _ Hval) in Hret.
    destruct (registrations r !! ToGVK (Type_ registration)); [discriminate|].
    injection Hret as <-. auto.
  - destruct (Register_invalid r _ Hval) as [v Hv]. congruence.
Qed.

Lemma Register_resolve r registration r' :
  Register r registration = Returned r' ->
  Resolve r' (Type_ registration) = Some (setDefaults registration).
Proof.
  intros (_ & _ & ->)%Register_returned. unfold Resolve. simpl.
  apply lookup_insert_eq.
Qed.

Lemma Register_preserves r registration r' key old :
  Register r registration = Returned r' ->
  registrations r !! key = Some old ->
  registrations r' !! key = Some old.
Proof.
  intros (_ & Hfresh & ->)%Register_returned Hold. simpl.
  rewrite lookup_insert_ne; [exact Hold|].
  intros <-. congruence.
Qed.

Lemma setDefaultACLs_eq registration :
  setDefaultACLs registration =
    mkACLHooks
      (Some (default defaultRead (ACLs registration ≫= Read)))
      (Some (default defaultWrite (ACLs registration ≫= Write)))
      (Some (default defaultList (ACLs registration ≫= List))).
Proof.
  unfold setDefaultACLs.
  destruct (ACLs registration) as [[[rd|] [wr|] [ls|]]|]; reflexivity.
Qed.

Lemma setDefaults_hooksPresent registration : hooksPresent (setDefaults registration).
Proof.
  unfold hooksPresent, setDefaults. simpl. rewrite setDefaultACLs_eq.
  destruct (Validate registration), (Mutate registration); eauto 10.
Qed.

(** ** The registry invariant *)

Lemma wellFormed_empty : wellFormed (mkTypeRegistry ∅).
Proof. intros key registration. simpl. rewrite lookup_empty. discriminate. Qed.

Lemma wellFormed_Register r registration r' :
  wellFormed r -> Register r registration = Returned r' -> wellFormed r'.
Proof.
  intros Hwf (Hval & _ & ->)%Register_returned key stored. simpl.
  rewrite lookup_insert. case_decide as Hkey.
  - intros [= <-]. split; [symmetry; exact Hkey|]. split; [exact Hval|].
    apply setDefaults_hooksPresent.
  - apply Hwf.
Qed.

Lemma reachable_wellFormed tomb r : reachable tomb r -> wellFormed r.
Proof.
  induction 1 as [r Hnew|r registration r' _ IH Hreg].
  - exact (wellFormed_Register _ _ _ wellFormed_empty Hnew).
  - exact (wellFormed_Register _ _ _ IH Hreg).
Qed.

Lemma elem_of_Types r registration :
  registration ∈ Types r <-> exists key, registrations r !! key = Some registration.
Proof.
  unfold Types. rewrite list_elem_of_fmap. split.
  - intros [[key x] [-> Hin]]. exists key. apply elem_of_map_to_list in Hin. exact Hin.
  - intros [key Hkey]. exists (key, registration). split; [reflexivity|].
    apply elem_of_map_to_list. exact Hkey.
Qed.

Lemma registered_lookup r typ :
  wellFormed r -> validType typ = true ->
  registered r typ <-> is_Some (registrations r !! ToGVK typ).
Proof.
  intros Hwf Hval. unfold registered. split.
  - intros [registration [[key Hkey]%elem_of_Types <-]].
    destruct (Hwf _ _ Hkey) as (-> & _ & _). eauto.
  - intros [registration Hkey]. exists registration. split.
    + apply elem_of_Types. eauto.
    + destruct (Hwf _ _ Hkey) as (Heq & Hval' & _).
      symmetry. apply ToGVK_inj; assumption.
Qed.

Lemma registered_valid r typ : wellFormed r -> registered r typ -> validType typ = true.
Proof.
  intros Hwf [registration [[key Hkey]%elem_of_Types <-]].
  apply (Hwf _ _ Hkey).
Qed.

Lemma Register_panics_wellFormed r registration :
  wellFormed r ->
  panics (Register r registration) <->
  MatchString groupRegexp (Group (Type_ registration)) = false
  \/ MatchString groupVersionRegexp (GroupVersion (Type_ registration)) = false
  \/ MatchString kindRegexp (Kind (Type_ registration)) = false
  \/ registered r (Type_ registration).
Proof.
  intros Hwf. destruct (validType (Type_ registration)) eqn:Hval.
  - rewrite (Register_valid _ _ Hval), (registered_lookup _ _ Hwf Hval).
    destruct (validType_parts _ Hval) as (Hg & Hv & Hk). unfold panics.
    destruct (registrations r !! ToGVK (Type_ registration)) as [old|]; split.
    + intros _. do 3 right. eauto.
    + intros _. eauto.
    + intros [v Hv']. discriminate.
    + intros [H|[H|[H|[x H]]]]; congruence.
  - split; [|intros _; apply Register_invalid, Hval].
    intros _. unfold validType in Hval.
    destruct (MatchString groupRegexp _); [|auto].
    destruct (MatchString groupVersionRegexp _); [|auto].
    destruct (MatchString kindRegexp _); [discriminate|auto].
Qed.

Lemma Register_two r reg1 reg2 :
  wellFormed r ->
  validType (Type_ reg1) = true -> validType (Type_ reg2) = true ->
  Type_ reg1 <> Type_ reg2 ->
  ~ registered r (Type_ reg1) -> ~ registered r (Type_ reg2) ->
  exists r1 r2,
    Register r reg1 = Returned r1 /\ Register r1 reg2 = Returned r2
    /\ Resolve r2 (Type_ reg1) = Some (setDefaults reg1)
    /\ Resolve r2 (Type_ reg2) = Some (setDefaults reg2).
Proof.
  intros Hwf Hv1 Hv2 Hne Hn1 Hn2.
  rewrite (registered_lookup _ _ Hwf Hv1) in Hn1.
  rewrite (registered_lookup _ _ Hwf Hv2) in Hn2.
  apply eq_None_not_Some in Hn1, Hn2.
  assert (Hkeys : ToGVK (Type_ reg1) <> ToGVK (Type_ reg2)).
  { intros Heq. apply Hne, ToGVK_inj; assumption. }
  eexists _, _.
  rewrite (Register_valid r _ Hv1), Hn1.
  split; [reflexivity|].
  rewrite (Register_valid _ _ Hv2). simpl.
  rewrite lookup_insert_ne, Hn2 by exact Hkeys.
  split; [reflexivity|]. unfold Resolve. simpl. split.
  - rewrite lookup_insert_ne by (intros Heq; apply Hkeys; symmetry; exact Heq).
    apply lookup_insert_eq.
  - apply lookup_insert_eq.
Qed.

Lemma Register_twice r registration r' again :
  wellFormed r ->
  Register r registration = Returned r' ->
  Type_ again = Type_ registration ->
  panics (Register r' again).
Proof.
  intros Hwf Hreg Htype.
  apply (Register_panics_wellFormed _ _ (wellFormed_Register _ _ _ Hwf Hreg)).
  do 3 right. exists (setDefaults registration). split.
  - apply elem_of_Types. exists (ToGVK (Type_ registration)).
    apply (Register_resolve _ _ _ Hreg).
  - simpl. symmetry. exact Htype.
Qed.

(** The registry that [NewRegistry] returns for the tombstone type of the
    repository, and a second kind to register in it. *)
Lemma NewRegistry_valid tomb :
  validType tomb = true ->
  NewRegistry tomb =
    Returned (mkTypeRegistry
      (<[ToGVK tomb := setDefaults (tombstoneRegistration tomb)]> ∅)).
Proof.
  intros Hval. unfold NewRegistry.
  rewrite (Register_valid _ (tombstoneRegistration tomb) Hval). simpl.
  rewrite lookup_empty. reflexivity.
Qed.

Lemma bootRegistry_reachable : reachable typeV1Tombstone bootRegistry.
Proof. apply reach_new. apply NewRegistry_valid. reflexivity. Qed.

Lemma demoRegistry_reachable : reachable typeV1Tombstone demoRegistry.
Proof.
  eapply reach_register; [eapply reach_register; [eapply reach_register|]|].
  - exact bootRegistry_reachable.
  - rewrite (Register_valid _ (readOnlyRegistration demoV2Artist NamespaceScope allowRead) eq_refl).
    reflexivity.
  - rewrite (Register_valid _
      (readOnlyRegistration demoV1RecordLabel PartitionScope needDataRead) eq_refl).
    reflexivity.
  - rewrite (Register_valid _ (plainRegistration demoV1Executive ClusterScope) eq_refl).
    reflexivity.
Qed.

(** C4. In a registry obtained from [NewRegistry] by [Register] calls,
    [Register] panics exactly when the group, the group version or the
    kind of the registration fails its regular expression, or when a
    registration with the same type key is already there.  Two distinct
    well-formed type keys, neither registered yet, can both be registered,
    after which [Resolve] finds each of them; registering a type key a
    second time panics. *)
Theorem Register_panics_exactly (tomb : pbType) (r : TypeRegistry)
  (Hreach : reachable tomb r) :
  (forall registration,
     panics (Register r registration) <->
     MatchString groupRegexp (Group (Type_ registration)) = false
     \/ MatchString groupVersionRegexp (GroupVersion (Type_ registration)) = false
     \/ MatchString kindRegexp (Kind (Type_ registration)) = false
     \/ registered r (Type_ registration))
  /\ (forall reg1 reg2,
        validType (Type_ reg1) = true -> validType (Type_ reg2) = true ->
        Type_ reg1 <> Type_ reg2 ->
        ~ registered r (Type_ reg1) -> ~ registered r (Type_ reg2) ->
        exists r1 r2,
          Register r reg1 = Returned r1 /\ Register r1 reg2 = Returned r2
          /\ Resolve r2 (Type_ reg1) = Some (setDefaults reg1)
          /\ Resolve r2 (Type_ reg2) = Some (setDefaults reg2))
  /\ (forall registration r' again,
        Register r registration = Returned r' ->
        Type_ again = Type_ registration ->
        panics (Register r' again)).
Proof.
  pose proof (reachable_wellFormed _ _ Hreach) as Hwf.
  split; [|split].
  - intros registration. apply Register_panics_wellFormed, Hwf.
  - intros reg1 reg2. apply Register_two, Hwf.
  - intros registration r' again. apply Register_twice, Hwf.
Qed.

Lemma Register_panics_exactly_witness :
  reachable typeV1Tombstone bootRegistry
  /\ exists r1 r2,
       Register bootRegistry (plainRegistration demoV2Artist NamespaceScope) = Returned r1
       /\ Register r1 (plainRegistration demoV1Executive ClusterScope) = Returned r2
       /\ Resolve r2 demoV2Artist
          = Some (setDefaults (plainRegistration demoV2Artist NamespaceScope))
       /\ Resolve r2 demoV1Executive
          = Some (setDefaults (plainRegistration demoV1Executive ClusterScope)).
Proof.
  split; [exact bootRegistry_reachable|].
  apply (proj1 (proj2 (Register_panics_exactly typeV1Tombstone bootRegistry
                         bootRegistry_reachable))
           (plainRegistration demoV2Artist NamespaceScope)
           (plainRegistration demoV1Executive ClusterScope)).
  - reflexivity.
  - reflexivity.
  - discriminate.
  - intros H.
    apply (registered_lookup bootRegistry demoV2Artist
             (reachable_wellFormed _ _ bootRegistry_reachable) eq_refl) in H.
    destruct H as [x H]. vm_compute in H. discriminate.
  - intros H.
    apply (registered_lookup bootRegistry demoV1Executive
             (reachable_wellFormed _ _ bootRegistry_reachable) eq_refl) in H.
    destruct H as [x H]. vm_compute in H. discriminate.
Defined.

(** ** Bootstrap *)

Lemma reachable_tombstone tomb r :
  reachable tomb r ->
  registrations r !! ToGVK tomb = Some (setDefaults (tombstoneRegistration tomb)).
Proof.
  induction 1 as [r Hnew|r registration r' _ IH Hreg].
  - apply (Register_resolve _ _ _ Hnew).
  - apply (Register_preserves _ _ _ _ _ Hreg IH).
Qed.

(** C5. [NewRegistry] registers the tombstone kind before it returns: the
    registry it returns, and every registry obtained from it by later
    [Register] calls, resolves the tombstone type to a registration that
    was given no hooks of its own and so carries the default ones
    (operator read, operator write, and the no-op validation and
    mutation); the same registration is among [Types].  For a well-formed
    tombstone type [NewRegistry] does return. *)
Theorem NewRegistry_tombstone (tomb : pbType) :
  (validType tomb = true -> exists r, NewRegistry tomb = Returned r)
  /\ (forall r, reachable tomb r ->
        exists registration,
          Resolve r tomb = Some registration
          /\ registration ∈ Types r
          /\ registration = setDefaults (tombstoneRegistration tomb)
          /\ Type_ registration = tomb
          /\ ACLs registration
             = Some (mkACLHooks (Some defaultRead) (Some defaultWrite) (Some defaultList))
          /\ Validate registration = Some defaultValidate
          /\ Mutate registration = Some defaultMutate).
Proof.
  split.
  - intros Hval. rewrite (NewRegistry_valid _ Hval). eauto.
  - intros r Hreach. pose proof (reachable_tombstone _ _ Hreach) as Hlook.
    exists (setDefaults (tombstoneRegistration tomb)).
    split; [exact Hlook|]. split; [apply elem_of_Types; eauto|].
    repeat split; reflexivity.
Qed.

Lemma NewRegistry_tombstone_witness :
  validType typeV1Tombstone = true
  /\ exists r, NewRegistry typeV1Tombstone = Returned r.
Proof.
  split; [reflexivity|].
  apply (proj1 (NewRegistry_tombstone typeV1Tombstone)). reflexivity.
Defined.

(** ** Hook defaulting *)

(** C9. Every registration held by a registry obtained from [NewRegistry]
    by [Register] calls, whether listed by [Types] or returned by
    [Resolve], has its [Read], [Write] and [List] ACL hooks and its
    [Validate] and [Mutate] hooks set.  What a returning [Register] stores
    is the registration it was given, with each hook that was absent
    replaced by its default and each hook that was present kept. *)
Theorem Register_hooks_never_nil (tomb : pbType) (r : TypeRegistry)
  (Hreach : reachable tomb r) :
  (forall registration,
     registration ∈ Types r \/ (exists typ, Resolve r typ = Some registration) ->
     hooksPresent registration)
  /\ (forall registration r',
        Register r registration = Returned r' ->
        exists stored,
          Resolve r' (Type_ registration) = Some stored
          /\ ACLs stored
             = Some (mkACLHooks
                       (Some (default defaultRead (ACLs registration ≫= Read)))
                       (Some (default defaultWrite (ACLs registration ≫= Write)))
                       (Some (default defaultList (ACLs registration ≫= List))))
          /\ Validate stored = Some (default defaultValidate (Validate registration))
          /\ Mutate stored = Some (default defaultMutate (Mutate registration))).
Proof.
  pose proof (reachable_wellFormed _ _ Hreach) as Hwf. split.
  - intros registration [[key Hkey]%elem_of_Types|[typ Hres]].
    + apply (Hwf _ _ Hkey).
    + apply (Hwf _ _ Hres).
  - intros registration r' Hreg. exists (setDefaults registration).
    split; [apply (Register_resolve _ _ _ Hreg)|].
    simpl. rewrite setDefaultACLs_eq.
    destruct (Validate registration), (Mutate registration); auto.
Qed.

Lemma Register_hooks_never_nil_witness :
  reachable typeV1Tombstone demoRegistry
  /\ forall registration,
       registration ∈ Types demoRegistry
       \/ (exists typ, Resolve demoRegistry typ = Some registration) ->
       hooksPresent registration.
Proof.
  split; [exact demoRegistry_reachable|].
  exact (proj1 (Register_hooks_never_nil typeV1Tombstone demoRegistry
                  demoRegistry_reachable)).
Defined.

(** ** The default [List] hook *)

Lemma Register_nil_List r registration r' :
  ACLs registration ≫= List = None ->
  Register r registration = Returned r' ->
  exists stored,
    Resolve r' (Type_ registration) = Some stored
    /\ ACLs stored ≫= List = Some defaultList.
Proof.
  intros Hnil Hreg. exists (setDefaults registration).
  split; [apply (Register_resolve _ _ _ Hreg)|].
  simpl. rewrite setDefaultACLs_eq, Hnil. reflexivity.
Qed.

(** C2. [Register] at a registration whose [List] hook is nil and whose
    [Read] hook lets every identity through: the [List] hook that ends up
    in the registry is the blanket operator-read check on an empty
    authorizer context.  It turns down a caller without that capability
    although the per-item [Read] hook would let every result through, so
    the list authorization installed is not the per-item filter. *)
Theorem Register_nil_List_is_operator_read :
  let registration := readOnlyRegistration demoV2Artist NamespaceScope allowRead in
  ACLs registration ≫= List = None
  /\ exists r' stored listHook readHook,
       Register bootRegistry registration = Returned r'
       /\ Resolve r' demoV2Artist = Some stored
       /\ ACLs stored ≫= List = Some listHook
       /\ ACLs stored ≫= Read = Some readHook
       /\ (forall authz authzContext,
             listHook authz authzContext = OperatorReadAllowed authz emptyAuthorizerContext)
       /\ (forall authzContext, listHook denyAll authzContext = Some ErrPermissionDenied)
       /\ (forall authzContext id, readHook denyAll authzContext id = None).
Proof.
  simpl. split; [reflexivity|].
  eexists _, _, _, _.
  split.
  { rewrite (Register_valid bootRegistry
               (readOnlyRegistration demoV2Artist NamespaceScope allowRead) eq_refl).
    reflexivity. }
  split; [reflexivity|].
  split; [reflexivity|].
  split; [reflexivity|].
  repeat split.
Qed.

(** ** Panic messages *)

Lemma emptyString_false s : s <> "" -> emptyString s = false.
Proof. intros Hne. unfold emptyString. apply String.eqb_neq. exact Hne. Qed.

(** C10, as stated, fails: a registration whose group is well formed and
    whose group version is empty fails the group-version expression, yet
    [Register] panics with the fixed message of its emptiness guard, which
    interpolates nothing. *)
Lemma Register_groupVersion_message_counterexample :
  ~ (forall r registration,
       MatchString groupRegexp (Group (Type_ registration)) = true ->
       MatchString groupVersionRegexp (GroupVersion (Type_ registration)) = false ->
       Register r registration
       = Panicked (PanicSprintf groupVersionFormat (Group (Type_ registration)))).
Proof.
  intros H.
  specialize (H (mkTypeRegistry ∅)
                (plainRegistration (mkType "demo" "" "Artist") NamespaceScope)
                eq_refl eq_refl).
  vm_compute in H. discriminate.
Qed.

(** C10, amended. When the group is well formed, the group version and the
    kind are not empty, and the group version fails its expression,
    [Register] panics with the group-version message, and the operand its
    format receives is the group, not the group version. *)
Theorem Register_groupVersion_message (r : TypeRegistry) (registration : Registration) :
  MatchString groupRegexp (Group (Type_ registration)) = true ->
  GroupVersion (Type_ registration) <> "" ->
  Kind (Type_ registration) <> "" ->
  MatchString groupVersionRegexp (GroupVersion (Type_ registration)) = false ->
  Register r registration
  = Panicked (PanicSprintf
      "Type.GroupVersion must be lowercase, start with `v`, and end with a number (e.g. `v2` or `v1alpha1`). Got: %q"
      (Group (Type_ registration))).
Proof.
  intros Hg Hv Hk Hbad. unfold Register.
  rewrite (MatchString_nonempty groupRegexp _ eq_refl Hg).
  rewrite (emptyString_false _ Hv), (emptyString_false _ Hk).
  rewrite Hg, Hbad. reflexivity.
Qed.

Lemma Register_groupVersion_message_witness :
  Register bootRegistry (plainRegistration (mkType "demo" "2" "Artist") NamespaceScope)
  = Panicked (PanicSprintf groupVersionFormat "demo").
Proof.
  apply (Register_groupVersion_message bootRegistry
           (plainRegistration (mkType "demo" "2" "Artist") NamespaceScope)).
  - reflexivity.
  - discriminate.
  - discriminate.
  - reflexivity.
Defined.

(** ** Type resolution in the read pipeline *)

Lemma find_sameGroupKind_Some r typ other :
  List.find (sameGroupKind typ) (Types r) = Some other ->
  other ∈ Types r
  /\ Group (Type_ other) = Group typ /\ Kind (Type_ other) = Kind typ.
Proof.
  intros [Hin Hsame]%List.find_some. split; [apply list_elem_of_In, Hin|].
  unfold sameGroupKind in Hsame. apply andb_true_iff in Hsame as [Hg Hk].
  split; apply String.eqb_eq; assumption.
Qed.

Lemma find_sameGroupKind_None r typ :
  List.find (sameGroupKind typ) (Types r) = None -> ~ groupKindRegistered r typ.
Proof.
  intros Hnone (registration & Hin & Hg & Hk).
  apply list_elem_of_In in Hin.
  pose proof (List.find_none _ _ Hnone _ Hin) as Hsame.
  unfold sameGroupKind in Hsame. rewrite Hg, Hk, !String.eqb_refl in Hsame.
  discriminate.
Qed.

Lemma messages_differ requested registered typ :
  groupVersionMismatchMessage requested registered <> notRegisteredMessage typ.
Proof.
  unfold groupVersionMismatchMessage, notRegisteredMessage. simpl. discriminate.
Qed.

Lemma validateId_typed id typ :
  idType id = Some typ -> Name id <> "" ->
  validateId (mkReadRequest (Some id)) = inr (id, typ).
Proof.
  intros Htyp Hname. unfold validateId. simpl.
  rewrite Htyp, (emptyString_false _ Hname). reflexivity.
Qed.

(** C3. When the exact type key of a read request is not registered in a
    registry obtained from [NewRegistry] by [Register] calls, the pipeline
    answers [InvalidArgument] with one of two different messages: if some
    registration has the same group and kind, its group version differs
    from the requested one and the message says that the resource was
    requested with the one but the type is registered as the other; if
    there is none, the message says that the resource type, written as its
    GVK string, is not registered. *)
Theorem resolveType_mismatch_or_unregistered (tomb : pbType) (r : TypeRegistry)
  (typ : pbType) (Hreach : reachable tomb r) (Hunres : Resolve r typ = None) :
  (groupKindRegistered r typ ->
     exists other,
       other ∈ Types r
       /\ Group (Type_ other) = Group typ /\ Kind (Type_ other) = Kind typ
       /\ GroupVersion (Type_ other) <> GroupVersion typ
       /\ resolveType r typ
          = inl (mkStatus InvalidArgument
                   ("resource was requested with GroupVersion " +:+ GroupVersion typ
                    +:+ " but type is registered as " +:+ GroupVersion (Type_ other))))
  /\ (~ groupKindRegistered r typ ->
        resolveType r typ
        = inl (mkStatus InvalidArgument
                 ("resource type " +:+ ToGVK typ +:+ " not registered")))
  /\ (forall requested registered,
        groupVersionMismatchMessage requested registered <> notRegisteredMessage typ)
  /\ (forall s caller id,
        Registry s = r -> idType id = Some typ -> Name id <> "" ->
        exists st,
          resolveType r typ = inl st
          /\ code st = InvalidArgument
          /\ ReadRPC s caller (mkReadRequest (Some id)) = ([], inl st)).
Proof.
  pose proof (reachable_wellFormed _ _ Hreach) as Hwf.
  assert (Hcases : resolveType r typ
            = match List.find (sameGroupKind typ) (Types r) with
              | Some other =>
                  inl (mkStatus InvalidArgument
                         (groupVersionMismatchMessage (GroupVersion typ)
                            (GroupVersion (Type_ other))))
              | None => inl (mkStatus InvalidArgument (notRegisteredMessage typ))
              end).
  { unfold resolveType. rewrite Hunres. reflexivity. }
  split; [|split; [|split]].
  - intros Hgk. destruct (List.find (sameGroupKind typ) (Types r)) as [other|] eqn:Hfind.
    + destruct (find_sameGroupKind_Some _ _ _ Hfind) as (Hin & Hg & Hk).
      exists other. repeat (split; [assumption|]). split; [|exact Hcases].
      intros Hv. apply elem_of_Types in Hin as [key Hkey].
      destruct (Hwf _ _ Hkey) as (-> & _ & _).
      assert (Type_ other = typ) as Heq.
      { destruct (Type_ other), typ; simpl in *; congruence. }
      unfold Resolve in Hunres. rewrite Heq in Hkey. congruence.
    + exfalso. exact (find_sameGroupKind_None _ _ Hfind Hgk).
  - intros Hno. destruct (List.find (sameGroupKind typ) (Types r)) as [other|] eqn:Hfind.
    + exfalso. apply Hno. destruct (find_sameGroupKind_Some _ _ _ Hfind) as (Hin & Hg & Hk).
      exists other. auto.
    + exact Hcases.
  - intros requested registered. apply messages_differ.
  - intros s caller id Hs Htyp Hname.
    assert (exists st, resolveType r typ = inl st /\ code st = InvalidArgument)
      as (st & Hst & Hcode).
    { rewrite Hcases. destruct (List.find _ _); eauto. }
    exists st. split; [exact Hst|]. split; [exact Hcode|].
    unfold ReadRPC. rewrite (validateId_typed _ _ Htyp Hname), Hs, Hst. reflexivity.
Qed.

Lemma resolveType_mismatch_or_unregistered_witness :
  reachable typeV1Tombstone demoRegistry
  /\ Resolve demoRegistry demoV1Artist = None
  /\ Resolve demoRegistry demoV2Unicorn = None
  /\ resolveType demoRegistry demoV2Unicorn
     = inl (mkStatus InvalidArgument "resource type demo.v2.Unicorn not registered").
Proof.
  split; [exact demoRegistry_reachable|].
  split; [reflexivity|]. split; [reflexivity|].
  apply (proj1 (proj2 (resolveType_mismatch_or_unregistered typeV1Tombstone demoRegistry
                         demoV2Unicorn demoRegistry_reachable eq_refl))).
  intros (registration & Hin & Hg & Hk).
  apply elem_of_Types in Hin as [key Hkey].
  destruct (reachable_wellFormed _ _ demoRegistry_reachable _ _ Hkey) as (-> & _ & _).
  unfold demoRegistry, bootRegistry in Hkey. simpl in Hkey.
  repeat (rewrite lookup_insert in Hkey; case_decide;
          [injection Hkey as <-; discriminate|]).
  rewrite lookup_empty in Hkey. discriminate.
Defined.

Example resolveType_demoV1Artist :
  resolveType demoRegistry demoV1Artist
  = inl (mkStatus InvalidArgument
           "resource was requested with GroupVersion v1 but type is registered as v2").
Proof. vm_compute. reflexivity. Qed.

(** ** Tenancy validation *)

Lemma emptyString_true_iff s : emptyString s = true <-> s = "".
Proof. unfold emptyString. apply String.eqb_eq. Qed.

Lemma emptyString_false_iff s : emptyString s = false <-> s <> "".
Proof. unfold emptyString. apply String.eqb_neq. Qed.

Lemma validateScopedTenancy_rejects id sc :
  is_Some (validateScopedTenancy id sc) <-> forbiddenPopulated id sc.
Proof.
  unfold validateScopedTenancy, forbiddenPopulated.
  destruct sc.
  - split; [intros [st Hst]; discriminate|intros [[Hsc _]|[Hsc _]]; discriminate].
  - destruct (emptyString (Partition (tenancyOf id))) eqn:Hp; simpl.
    + destruct (emptyString (Namespace (tenancyOf id))) eqn:Hn; simpl.
      * apply emptyString_true_iff in Hp, Hn. split.
        -- intros [st Hst]. discriminate.
        -- intros [[_ [H|H]]|[Hsc _]]; [congruence|congruence|discriminate].
      * apply emptyString_false_iff in Hn. split; [|eauto].
        intros _. left. split; [reflexivity|]. right. exact Hn.
    + apply emptyString_false_iff in Hp. split; [|eauto].
      intros _. left. split; [reflexivity|]. left. exact Hp.
  - destruct (emptyString (Namespace (tenancyOf id))) eqn:Hn; simpl.
    + apply emptyString_true_iff in Hn. split.
      * intros [st Hst]. discriminate.
      * intros [[Hsc _]|[_ H]]; [discriminate|congruence].
    + apply emptyString_false_iff in Hn. split; [|eauto].
      intros _. right. split; [reflexivity|exact Hn].
  - split; [intros [st Hst]; discriminate|intros [[Hsc _]|[Hsc _]]; discriminate].
Qed.

Lemma validateScopedTenancy_code id sc st :
  validateScopedTenancy id sc = Some st -> code st = InvalidArgument.
Proof.
  unfold validateScopedTenancy.
  destruct sc; try discriminate;
    repeat match goal with |- context [if ?b then _ else _] => destruct b end;
    intros [= <-] || discriminate; reflexivity.
Qed.

Lemma resolveType_Resolve r typ registration :
  Resolve r typ = Some registration -> resolveType r typ = inr registration.
Proof. intros H. unfold resolveType. rewrite H. reflexivity. Qed.

(** C6. The validator rejects an identity exactly when the scope forbids
    a tenancy field that the identity populates: the partition or the
    namespace for a cluster-scoped kind, the namespace for a
    partition-scoped kind; its rejection is an [InvalidArgument].  A read
    whose identity resolves to such a kind and populates such a field
    fails with [InvalidArgument], and calls no backend. *)
Theorem ReadRPC_scope_violation :
  (forall id sc, is_Some (validateScopedTenancy id sc) <-> forbiddenPopulated id sc)
  /\ (forall id sc st, validateScopedTenancy id sc = Some st -> code st = InvalidArgument)
  /\ (forall s caller id typ registration,
        idType id = Some typ ->
        Resolve (Registry s) typ = Some registration ->
        forbiddenPopulated id (scope registration) ->
        exists st,
          ReadRPC s caller (mkReadRequest (Some id)) = ([], inl st)
          /\ code st = InvalidArgument).
Proof.
  split; [exact validateScopedTenancy_rejects|].
  split; [exact validateScopedTenancy_code|].
  intros s caller id typ registration Htyp Hres Hforbidden.
  apply validateScopedTenancy_rejects in Hforbidden as [st Hst].
  unfold ReadRPC, validateId. simpl. rewrite Htyp.
  destruct (emptyString (Name id)); [eauto|].
  rewrite (resolveType_Resolve _ _ _ Hres), Hst.
  exists st. split; [reflexivity|]. apply (validateScopedTenancy_code _ _ _ Hst).
Qed.

Lemma ReadRPC_scope_violation_witness :
  exists st,
    ReadRPC (demoServer fullBackend) eventualCaller
      (mkReadRequest (Some (executiveId (mkTenancy "default" "" ""))))
    = ([], inl st)
    /\ code st = InvalidArgument.
Proof.
  apply (proj2 (proj2 ReadRPC_scope_violation) (demoServer fullBackend) eventualCaller
           (executiveId (mkTenancy "default" "" "")) demoV1Executive
           (setDefaults (plainRegistration demoV1Executive ClusterScope))).
  - reflexivity.
  - reflexivity.
  - left. split; [reflexivity|]. left. discriminate.
Defined.

(** ** Consistency *)

Lemma fetch_calls s caller registration id needData :
  fst (fetch s caller registration id needData)
  = [mkBackendCall (readConsistencyFrom (consistency caller)) id].
Proof.
  unfold fetch.
  destruct (backend s _ id) as [resource|e]; [|reflexivity].
  destruct needData; [|reflexivity].
  destruct (DataACL s registration _ _ resource) as [[]|]; reflexivity.
Qed.

Lemma fetch_backend_error s caller registration id needData e :
  backend s (readConsistencyFrom (consistency caller)) id = inr e ->
  snd (fetch s caller registration id needData) = inl (statusOfBackendError e).
Proof. intros He. unfold fetch. rewrite He. reflexivity. Qed.

Lemma ReadRPC_calls s caller req :
  fst (ReadRPC s caller req) = []
  \/ exists id, reqId req = Some id
       /\ fst (ReadRPC s caller req)
          = [mkBackendCall (readConsistencyFrom (consistency caller)) id].
Proof.
  unfold ReadRPC, validateId.
  destruct (reqId req) as [id|]; [|auto].
  destruct (idType id) as [typ|]; [|auto].
  destruct (emptyString (Name id)); [auto|].
  destruct (resolveType (Registry s) typ) as [st|registration]; [auto|].
  destruct (validateScopedTenancy id (scope registration)); [auto|].
  destruct (readHookOf registration) as [hook|]; [|auto].
  destruct (hook (authz caller) (authzContext caller) id) as [[]|]; auto;
    right; exists id; (split; [reflexivity|apply fetch_calls]).
Qed.

Lemma ReadRPC_fetch s caller req id registration hook (needData : bool) :
  reachesAuthorization s req id registration hook ->
  hook (authz caller) (authzContext caller) id
  = (if needData then Some ErrNeedData else None) ->
  ReadRPC s caller req = fetch s caller registration id needData.
Proof.
  intros (typ & Hid & Hres & Hten & Hhook) Hdecision. unfold ReadRPC.
  rewrite Hid, Hres, Hten, Hhook, Hdecision. destruct needData; reflexivity.
Qed.

(** C7. The selector maps an unspecified preference to
    [EventualConsistency] and a strong one to [StrongConsistency].  Every
    call a read makes to the backend carries the mode so selected, and a
    read makes at most one; a read that passes validation and the
    identity-level authorization makes exactly one, at the requested
    identity; and if the backend answers that call with [Unavailable], the
    read fails with [Unavailable] and the backend's message. *)
Theorem ReadRPC_consistency :
  readConsistencyFrom PreferenceUnspecified = EventualConsistency
  /\ readConsistencyFrom PreferenceStrong = StrongConsistency
  /\ (forall s caller req call,
        call ∈ fst (ReadRPC s caller req) ->
        callConsistency call = readConsistencyFrom (consistency caller))
  /\ (forall s caller req, length (fst (ReadRPC s caller req)) <= 1)
  /\ (forall s caller req id registration hook (needData : bool),
        reachesAuthorization s req id registration hook ->
        hook (authz caller) (authzContext caller) id
        = (if needData then Some ErrNeedData else None) ->
        fst (ReadRPC s caller req)
        = [mkBackendCall (readConsistencyFrom (consistency caller)) id]
        /\ (forall msg,
              backend s (readConsistencyFrom (consistency caller)) id
              = inr (mkBackendError ErrUnavailable msg) ->
              snd (ReadRPC s caller req) = inl (mkStatus Unavailable msg))).
Proof.
  split; [reflexivity|]. split; [reflexivity|].
  split; [|split].
  - intros s caller req call Hin.
    destruct (ReadRPC_calls s caller req) as [Hnone|(id & _ & Hone)].
    + rewrite Hnone in Hin. inversion Hin.
    + rewrite Hone in Hin. apply list_elem_of_singleton in Hin as ->. reflexivity.
  - intros s caller req.
    destruct (ReadRPC_calls s caller req) as [->|(id & _ & ->)]; simpl; lia.
  - intros s caller req id registration hook needData Hreach Hdecision.
    rewrite (ReadRPC_fetch _ _ _ _ _ _ _ Hreach Hdecision).
    split; [apply fetch_calls|].
    intros msg Hdown. rewrite (fetch_backend_error _ _ _ _ _ _ Hdown). reflexivity.
Qed.

Lemma artist_reachesAuthorization b :
  reachesAuthorization (demoServer b) (mkReadRequest (Some artistId)) artistId
    (setDefaults (readOnlyRegistration demoV2Artist NamespaceScope allowRead)) allowRead.
Proof. exists demoV2Artist. repeat split. Qed.

Lemma label_reachesAuthorization b :
  reachesAuthorization (demoServer b) (mkReadRequest (Some labelId)) labelId
    (setDefaults (readOnlyRegistration demoV1RecordLabel PartitionScope needDataRead))
    needDataRead.
Proof. exists demoV1RecordLabel. repeat split. Qed.

Lemma ReadRPC_consistency_witness :
  fst (ReadRPC (demoServer downBackend) strongCaller (mkReadRequest (Some artistId)))
  = [mkBackendCall StrongConsistency artistId]
  /\ snd (ReadRPC (demoServer downBackend) strongCaller (mkReadRequest (Some artistId)))
     = inl (mkStatus Unavailable "no leader").
Proof.
  destruct (proj2 (proj2 (proj2 (proj2 ReadRPC_consistency)))
              (demoServer downBackend) strongCaller (mkReadRequest (Some artistId))
              artistId _ _ false (artist_reachesAuthorization downBackend) eq_refl)
    as [Hcalls Hdown].
  split; [exact Hcalls|]. apply Hdown. reflexivity.
Defined.

(** ** Authorization and existence *)

Lemma reachesAuthorization_backend s b req id registration hook :
  reachesAuthorization s req id registration hook ->
  reachesAuthorization (mkServer (Registry s) b (DataACL s)) req id registration hook.
Proof. intros (typ & H). exists typ. exact H. Qed.

(** C1. Take a read that gets as far as authorization.  If the read hook
    of its kind needs the stored data to decide and the backend holds no
    record at the identity, the read fails with [NotFound]; whatever the
    tenancy, such a read never fails with [PermissionDenied].  If the hook
    denies from the identity alone, the read fails with [PermissionDenied]
    whatever the backend holds, and the backend is not consulted. *)
Theorem ReadRPC_denial_and_existence :
  (forall s caller req id registration hook e,
     reachesAuthorization s req id registration hook ->
     hook (authz caller) (authzContext caller) id = Some ErrNeedData ->
     backend s (readConsistencyFrom (consistency caller)) id = inr e ->
     errClass e = ErrNotFound ->
     ReadRPC s caller req
     = ([mkBackendCall (readConsistencyFrom (consistency caller)) id],
        inl (mkStatus NotFound (errMessage e))))
  /\ (forall s caller req id typ registration hook e,
        validateId req = inr (id, typ) ->
        resolveType (Registry s) typ = inr registration ->
        readHookOf registration = Some hook ->
        hook (authz caller) (authzContext caller) id = Some ErrNeedData ->
        backend s (readConsistencyFrom (consistency caller)) id = inr e ->
        errClass e = ErrNotFound ->
        exists st,
          snd (ReadRPC s caller req) = inl st /\ code st <> PermissionDenied)
  /\ (forall s caller req id registration hook,
        reachesAuthorization s req id registration hook ->
        hook (authz caller) (authzContext caller) id = Some ErrPermissionDenied ->
        forall b, exists msg,
          ReadRPC (mkServer (Registry s) b (DataACL s)) caller req
          = ([], inl (mkStatus PermissionDenied msg))).
Proof.
  split; [|split].
  - intros s caller req id registration hook e Hreach Hneed Hmiss Hclass.
    rewrite (ReadRPC_fetch _ _ _ _ _ _ true Hreach Hneed).
    unfold fetch. rewrite Hmiss. unfold statusOfBackendError. rewrite Hclass.
    reflexivity.
  - intros s caller req id typ registration hook e Hid Hres Hhook Hneed Hmiss Hclass.
    unfold ReadRPC. rewrite Hid, Hres.
    destruct (validateScopedTenancy id (scope registration)) as [st|] eqn:Hten.
    + exists st. split; [reflexivity|].
      rewrite (validateScopedTenancy_code _ _ _ Hten). discriminate.
    + rewrite Hhook, Hneed. unfold fetch. rewrite Hmiss.
      unfold statusOfBackendError. rewrite Hclass. simpl. eauto.
  - intros s caller req id registration hook Hreach Hdeny b.
    destruct (reachesAuthorization_backend _ b _ _ _ _ Hreach)
      as (typ & Hid & Hres & Hten & Hhook).
    unfold ReadRPC. rewrite Hid, Hres, Hten, Hhook. simpl. rewrite Hdeny. eauto.
Qed.

Lemma ReadRPC_denial_and_existence_witness :
  ReadRPC (demoServer emptyBackend) eventualCaller (mkReadRequest (Some labelId))
  = ([mkBackendCall EventualConsistency labelId],
     inl (mkStatus NotFound "resource not found")).
Proof.
  apply (proj1 ReadRPC_denial_and_existence (demoServer emptyBackend) eventualCaller
           (mkReadRequest (Some labelId)) labelId _ _
           (mkBackendError ErrNotFound "resource not found")
           (label_reachesAuthorization emptyBackend)).
  - reflexivity.
  - reflexivity.
  - reflexivity.
Defined.

Example ReadRPC_label_exists :
  ReadRPC (demoServer fullBackend) eventualCaller (mkReadRequest (Some labelId))
  = ([mkBackendCall EventualConsistency labelId],
     inl (mkStatus PermissionDenied "permission denied")).
Proof. vm_compute. reflexivity. Qed.

Example ReadRPC_artist_found :
  snd (ReadRPC (demoServer fullBackend) strongCaller (mkReadRequest (Some artistId)))
  = inr (mkResource artistId "1" "payload").
Proof. vm_compute. reflexivity. Qed.

(** * Further properties of the sources *)

(** ** [Split], [Join] and the GVK string *)

Lemma Split_length s sep : length (Split s sep) = S (countChar sep s).
Proof.
  induction s as [|c s IH]; simpl; [reflexivity|].
  destruct (Ascii.eqb c sep); simpl; [rewrite IH; reflexivity|].
  destruct (Split s sep) as [|p ps]; simpl in *; [discriminate|exact IH].
Qed.

Lemma Join_Split s sep : Join (Split s sep) (String sep "") = s.
Proof.
  induction s as [|c s IH]; simpl; [reflexivity|].
  destruct (Ascii.eqb_spec c sep) as [->|Hne].
  - simpl. destruct (Split s sep) as [|p ps] eqn:Hs.
    + exfalso. exact (Split_nonempty _ _ Hs).
    + rewrite IH. reflexivity.
  - destruct (Split s sep) as [|p ps] eqn:Hs.
    + exfalso. exact (Split_nonempty _ _ Hs).
    + rewrite <- IH. simpl. destruct ps; reflexivity.
Qed.

Lemma Split_app s1 s2 sep :
  Split (s1 +:+ String sep s2) sep = (Split s1 sep ++ Split s2 sep)%list.
Proof.
  induction s1 as [|c s1 IH].
  - change ("" +:+ String sep s2) with (String sep s2). simpl.
    rewrite Ascii.eqb_refl. reflexivity.
  - change (String c s1 +:+ String sep s2) with (String c (s1 +:+ String sep s2)).
    simpl. destruct (Ascii.eqb c sep); [rewrite IH; reflexivity|].
    rewrite IH. destruct (Split s1 sep) as [|p ps] eqn:Hs; [|reflexivity].
    exfalso. exact (Split_nonempty _ _ Hs).
Qed.

Lemma countChar_zero s : countChar "."%char s = 0 <-> allChars notDot s = true.
Proof.
  induction s as [|c s IH]; simpl; [tauto|].
  unfold notDot at 1. destruct (Ascii.eqb c "."%char); simpl; [split; discriminate|].
  exact IH.
Qed.

Lemma Split_one s x : Split s "."%char = [x] -> allChars notDot s = true.
Proof.
  intros Hs. apply countChar_zero.
  pose proof (Split_length s "."%char) as Hlen. rewrite Hs in Hlen. simpl in Hlen. lia.
Qed.

Lemma ToGVK_Join typ :
  ToGVK typ = Join [Group typ; GroupVersion typ; Kind typ] ".".
Proof. reflexivity. Qed.

Lemma ToGVK_Split typ :
  Split (ToGVK typ) "."%char
  = (Split (Group typ) "."%char ++ Split (GroupVersion typ) "."%char
     ++ Split (Kind typ) "."%char)%list.
Proof.
  unfold ToGVK.
  change ("." +:+ GroupVersion typ +:+ "." +:+ Kind typ)
    with (String "."%char (GroupVersion typ +:+ String "."%char (Kind typ))).
  rewrite !Split_app. reflexivity.
Qed.

(** [ParseGVK] accepts exactly the strings that hold two dots, wherever
    the dots are. *)
Theorem ParseGVK_two_dots gvk :
  (exists typ, ParseGVK gvk = inl typ) <-> countChar "."%char gvk = 2.
Proof.
  pose proof (Split_length gvk "."%char) as Hlen. unfold ParseGVK.
  destruct (Split gvk "."%char) as [|g [|v [|k [|x l]]]]; simpl in Hlen; split;
    intros H;
    try match type of H with ex _ => destruct H as [typ H]; discriminate end;
    try lia; eauto.
Qed.

(** Formatting what [ParseGVK] returns gives back the string that was
    parsed: no byte of an accepted input is lost or altered. *)
Theorem ToGVK_ParseGVK gvk typ : ParseGVK gvk = inl typ -> ToGVK typ = gvk.
Proof.
  unfold ParseGVK. intros Hparse.
  pose proof (Join_Split gvk "."%char) as Hjoin.
  destruct (Split gvk "."%char) as [|g [|v [|k [|x l]]]]; try discriminate.
  injection Hparse as <-. exact Hjoin.
Qed.

Lemma ToGVK_ParseGVK_witness : ToGVK (mkType "a" "" "B c") = "a..B c".
Proof. apply (ToGVK_ParseGVK "a..B c" (mkType "a" "" "B c")). reflexivity. Defined.

(** ** What the three expressions accept *)

Lemma MatchString_Alt s : forall a b,
  MatchString (Alt a b) s = MatchString a s || MatchString b s.
Proof. induction s as [|c s IH]; intros a b; simpl; [reflexivity|apply IH]. Qed.

Lemma MatchString_Eps s : MatchString Eps s = true <-> s = "".
Proof.
  destruct s as [|c s]; simpl; [tauto|].
  rewrite (isVoid_no_match s Void eq_refl). split; discriminate.
Qed.

Lemma MatchString_Class p s :
  MatchString (Class p) s = true <-> exists c, s = String c "" /\ p c = true.
Proof.
  destruct s as [|c s]; simpl.
  - split; [discriminate|]. intros (c & Hc & _). discriminate.
  - destruct (p c) eqn:Hp.
    + rewrite MatchString_Eps. split.
      * intros ->. eauto.
      * intros (d & [= -> ->] & _). reflexivity.
    + rewrite (isVoid_no_match s Void eq_refl). split; [discriminate|].
      intros (d & [= -> ->] & Hd). congruence.
Qed.

Lemma MatchString_Seq s : forall a b,
  MatchString (Seq a b) s = true
  <-> exists s1 s2, s = s1 +:+ s2 /\ MatchString a s1 = true /\ MatchString b s2 = true.
Proof.
  induction s as [|c s IH]; intros a b; simpl.
  - rewrite andb_true_iff. split.
    + intros [Ha Hb]. exists "", "". auto.
    + intros (s1 & s2 & Heq & H1 & H2).
      destruct s1 as [|c1 s1]; [|discriminate]. destruct s2 as [|c2 s2]; [|discriminate].
      auto.
  - destruct (nullable a) eqn:Hn.
    + rewrite MatchString_Alt, orb_true_iff, IH. split.
      * intros [(s1 & s2 & -> & H1 & H2)|Hb].
        -- exists (String c s1), s2. auto.
        -- exists "", (String c s). auto.
      * intros (s1 & s2 & Heq & H1 & H2). destruct s1 as [|c1 s1].
        -- right. change ("" +:+ s2) with s2 in Heq. subst s2. exact H2.
        -- left. change (String c1 s1 +:+ s2) with (String c1 (s1 +:+ s2)) in Heq.
           injection Heq as -> ->. eauto.
    + rewrite IH. split.
      * intros (s1 & s2 & -> & H1 & H2). exists (String c s1), s2. auto.
      * intros (s1 & s2 & Heq & H1 & H2). destruct s1 as [|c1 s1].
        -- simpl in H1. congruence.
        -- change (String c1 s1 +:+ s2) with (String c1 (s1 +:+ s2)) in Heq.
           injection Heq as -> ->. eauto.
Qed.

Lemma MatchString_Star_Class p s :
  MatchString (Star (Class p)) s = true <-> allChars p s = true.
Proof.
  induction s as [|c s IH]; simpl; [tauto|].
  destruct (p c) eqn:Hp; simpl.
  - rewrite MatchString_Seq, <- IH. split.
    + intros (s1 & s2 & -> & ->%MatchString_Eps & H2). exact H2.
    + intros H. exists "", s. auto.
  - rewrite (isVoid_no_match s (Seq Void (Star (Class p))) eq_refl). tauto.
Qed.

Lemma MatchString_Plus_Class p s :
  MatchString (Plus (Class p)) s = true <-> s <> "" /\ allChars p s = true.
Proof.
  unfold Plus. rewrite MatchString_Seq. split.
  - intros (s1 & s2 & -> & (c & -> & Hc)%MatchString_Class & H2%MatchString_Star_Class).
    split; [discriminate|]. simpl. rewrite Hc. exact H2.
  - intros [Hne Hall]. destruct s as [|c s]; [congruence|].
    simpl in Hall. apply andb_true_iff in Hall as [Hc Hs].
    exists (String c ""), s. split; [reflexivity|].
    split; [apply MatchString_Class; eauto|apply MatchString_Star_Class, Hs].
Qed.

(** [groupRegexp] accepts exactly the strings of at least two bytes whose
    first byte is a lower-case letter and whose other bytes are lower-case
    letters, digits or underscores. *)
Theorem groupRegexp_accepts s :
  MatchString groupRegexp s = true
  <-> exists c rest,
        s = String c rest /\ lower c = true /\ rest <> ""
        /\ allChars (orClass lower (orClass digit (isChar "_"%char))) rest = true.
Proof.
  unfold groupRegexp. rewrite MatchString_Seq. split.
  - intros (s1 & s2 & -> & (c & -> & Hc)%MatchString_Class & [Hne Hall]%MatchString_Plus_Class).
    exists c, s2. auto.
  - intros (c & rest & -> & Hc & Hne & Hall). exists (String c ""), rest.
    split; [reflexivity|].
    split; [apply MatchString_Class; eauto|apply MatchString_Plus_Class; auto].
Qed.

(** [kindRegexp] accepts exactly the strings of at least two bytes whose
    first byte is an upper-case letter and whose other bytes are letters or
    digits. *)
Theorem kindRegexp_accepts s :
  MatchString kindRegexp s = true
  <-> exists c rest,
        s = String c rest /\ upper c = true /\ rest <> ""
        /\ allChars (orClass upper (orClass lower digit)) rest = true.
Proof.
  unfold kindRegexp. rewrite MatchString_Seq. split.
  - intros (s1 & s2 & -> & (c & -> & Hc)%MatchString_Class & [Hne Hall]%MatchString_Plus_Class).
    exists c, s2. auto.
  - intros (c & rest & -> & Hc & Hne & Hall). exists (String c ""), rest.
    split; [reflexivity|].
    split; [apply MatchString_Class; eauto|apply MatchString_Plus_Class; auto].
Qed.

(** [groupVersionRegexp] accepts exactly the strings that start with [v],
    end with a digit, and hold only lower-case letters and digits in
    between; the shortest are [v0] to [v9]. *)
Theorem groupVersionRegexp_accepts s :
  MatchString groupVersionRegexp s = true
  <-> exists middle d,
        s = String "v"%char (middle +:+ String d "")
        /\ allChars (orClass lower digit) middle = true /\ digit d = true.
Proof.
  unfold groupVersionRegexp, Opt. rewrite MatchString_Seq. split.
  - intros (s1 & s2 & -> & (c & -> & Hc)%MatchString_Class & H2).
    apply MatchString_Seq in H2 as (t1 & t2 & -> & Ht1 & (d & -> & Hd)%MatchString_Class).
    apply Ascii.eqb_eq in Hc as <-. exists t1, d.
    split; [reflexivity|]. split; [|exact Hd].
    rewrite MatchString_Alt in Ht1. apply orb_true_iff in Ht1 as [Hplus|Heps].
    + apply MatchString_Plus_Class in Hplus. tauto.
    + apply MatchString_Eps in Heps as ->. reflexivity.
  - intros (middle & d & -> & Hmid & Hd).
    exists (String "v"%char ""), (middle +:+ String d "").
    split; [reflexivity|]. split; [apply MatchString_Class; eauto|].
    apply MatchString_Seq. exists middle, (String d "").
    split; [reflexivity|]. split; [|apply MatchString_Class; eauto].
    rewrite MatchString_Alt. apply orb_true_iff.
    destruct middle as [|c middle].
    + right. reflexivity.
    + left. apply MatchString_Plus_Class. split; [discriminate|exact Hmid].
Qed.

(** ** Registry keys *)

Lemma validType_dotFree typ : validType typ = true -> dotFree typ = true.
Proof.
  intros (Hg & Hv & Hk)%validType_parts. unfold dotFree.
  rewrite (alphabet_notDot groupRegexp _ eq_refl Hg).
  rewrite (alphabet_notDot groupVersionRegexp _ eq_refl Hv).
  rewrite (alphabet_notDot kindRegexp _ eq_refl Hk). reflexivity.
Qed.

Lemma Split_one_eq s x : Split s "."%char = [x] -> x = s.
Proof.
  intros Hs. pose proof (Split_one _ _ Hs) as Hfree.
  rewrite (Split_single _ Hfree) in Hs. congruence.
Qed.

Lemma ToGVK_eq_dotFree typ typ' :
  dotFree typ' = true -> ToGVK typ = ToGVK typ' -> typ = typ'.
Proof.
  unfold dotFree. rewrite !andb_true_iff. intros [[Hg Hv] Hk] Heq.
  apply (f_equal (fun s => Split s "."%char)) in Heq.
  rewrite !ToGVK_Split in Heq.
  rewrite (Split_single _ Hg), (Split_single _ Hv), (Split_single _ Hk) in Heq.
  destruct (Split (Group typ) "."%char) as [|a la] eqn:Ha;
    [exfalso; exact (Split_nonempty _ _ Ha)|].
  destruct (Split (GroupVersion typ) "."%char) as [|b lb] eqn:Hb;
    [exfalso; exact (Split_nonempty _ _ Hb)|].
  destruct (Split (Kind typ) "."%char) as [|c lc] eqn:Hc;
    [exfalso; exact (Split_nonempty _ _ Hc)|].
  assert (la = [] /\ lb = [] /\ lc = []) as (-> & -> & ->).
  { apply (f_equal length) in Heq. simpl in Heq.
    rewrite !length_app in Heq. simpl in Heq. rewrite !length_app in Heq. simpl in Heq.
    destruct la, lb, lc; simpl in Heq; try lia. auto. }
  simpl in Heq. injection Heq as -> -> ->.
  apply Split_one_eq in Ha, Hb, Hc.
  destruct typ, typ'; simpl in *. congruence.
Qed.

(** A type key whose components hold no dot has a GVK string that no other
    type key formats to, whatever the components of the other; every key
    that passes the syntax checks of [Register] is of that sort.  Without
    the restriction two different type keys can share one GVK string. *)
Theorem ToGVK_unambiguous (typ typ' : pbType) (Hfree : dotFree typ' = true)
  (Heq : ToGVK typ = ToGVK typ') :
  typ = typ'
  /\ (forall valid, validType valid = true -> dotFree valid = true)
  /\ ToGVK (mkType "a.b" "c" "d") = ToGVK (mkType "a" "b.c" "d").
Proof.
  split; [exact (ToGVK_eq_dotFree _ _ Hfree Heq)|].
  split; [exact validType_dotFree|reflexivity].
Qed.

Lemma ToGVK_unambiguous_witness : demoV2Artist = mkType "demo" "v2" "Artist".
Proof.
  apply (ToGVK_unambiguous demoV2Artist (mkType "demo" "v2" "Artist")); reflexivity.
Defined.

(** In a registry obtained from [NewRegistry] by [Register] calls,
    [Resolve] only ever answers with a registration of the very type it
    was asked for, and only for well-formed types: no ill-formed type
    resolves, even one whose GVK string coincides with a registered key. *)
Theorem Resolve_requested_type (tomb : pbType) (r : TypeRegistry) (typ : pbType)
  (registration : Registration)
  (Hreach : reachable tomb r) (Hres : Resolve r typ = Some registration) :
  Type_ registration = typ /\ validType typ = true.
Proof.
  destruct (reachable_wellFormed _ _ Hreach _ _ Hres) as (Hkey & Hval & _).
  assert (typ = Type_ registration) as ->.
  { apply ToGVK_eq_dotFree; [apply validType_dotFree, Hval|exact Hkey]. }
  auto.
Qed.

Lemma Resolve_requested_type_witness :
  Type_ (setDefaults (plainRegistration demoV1Executive ClusterScope)) = demoV1Executive
  /\ validType demoV1Executive = true.
Proof.
  apply (Resolve_requested_type typeV1Tombstone demoRegistry demoV1Executive
           (setDefaults (plainRegistration demoV1Executive ClusterScope))
           demoRegistry_reachable).
  reflexivity.
Defined.

(** A [Register] call that returns leaves the answer of [Resolve]
    unchanged for every type other than the one registered, well formed
    or not. *)
Theorem Register_frame (r r' : TypeRegistry) (registration : Registration)
  (typ : pbType)
  (Hreg : Register r registration = Returned r') (Hother : typ <> Type_ registration) :
  Resolve r' typ = Resolve r typ.
Proof.
  apply Register_returned in Hreg as (Hval & _ & ->). unfold Resolve. simpl.
  apply lookup_insert_ne. intros Heq. apply Hother.
  apply ToGVK_eq_dotFree; [apply validType_dotFree, Hval|symmetry; exact Heq].
Qed.

Lemma Register_frame_witness :
  Resolve (mkTypeRegistry
             (<[ToGVK demoV2Artist := setDefaults (plainRegistration demoV2Artist NamespaceScope)]>
                (registrations bootRegistry)))
    typeV1Tombstone
  = Resolve bootRegistry typeV1Tombstone.
Proof.
  apply (Register_frame bootRegistry _ (plainRegistration demoV2Artist NamespaceScope)
           typeV1Tombstone).
  - rewrite (Register_valid _ (plainRegistration demoV2Artist NamespaceScope) eq_refl).
    reflexivity.
  - discriminate.
Defined.

(** Registering two kinds gives the same registry in either order. *)
Theorem Register_commute (r ra rab : TypeRegistry) (a b : Registration)
  (Ha : Register r a = Returned ra) (Hb : Register ra b = Returned rab) :
  exists rb, Register r b = Returned rb /\ Register rb a = Returned rab.
Proof.
  apply Register_returned in Ha as (Hva & Hfa & ->).
  apply Register_returned in Hb as (Hvb & Hfb & ->). simpl in *.
  assert (Hne : ToGVK (Type_ a) <> ToGVK (Type_ b)).
  { intros Heq. rewrite <- Heq, lookup_insert_eq in Hfb. discriminate. }
  rewrite lookup_insert_ne in Hfb by exact Hne.
  eexists. rewrite (Register_valid r b Hvb), Hfb. split; [reflexivity|].
  rewrite (Register_valid _ a Hva). simpl.
  rewrite lookup_insert_ne, Hfa by congruence.
  f_equal. f_equal. apply insert_insert_ne. congruence.
Qed.

Lemma Register_commute_witness :
  exists rb,
    Register bootRegistry (plainRegistration demoV1Executive ClusterScope) = Returned rb
    /\ Register rb (plainRegistration demoV2Artist NamespaceScope)
       = Returned (mkTypeRegistry
           (<[ToGVK demoV1Executive :=
                setDefaults (plainRegistration demoV1Executive ClusterScope)]>
              (<[ToGVK demoV2Artist :=
                   setDefaults (plainRegistration demoV2Artist NamespaceScope)]>
                 (registrations bootRegistry)))).
Proof.
  apply (Register_commute bootRegistry
           (mkTypeRegistry
              (<[ToGVK demoV2Artist :=
                   setDefaults (plainRegistration demoV2Artist NamespaceScope)]>
                 (registrations bootRegistry)))).
  - rewrite (Register_valid _ (plainRegistration demoV2Artist NamespaceScope) eq_refl).
    reflexivity.
  - rewrite (Register_valid _ (plainRegistration demoV1Executive ClusterScope) eq_refl).
    reflexivity.
Defined.

(** ** [Types] *)

(** A [Register] call that returns adds exactly one registration to what
    [Types] lists: the new list is, up to order, the stored registration
    put in front of the old list. *)
Theorem Types_Register (r r' : TypeRegistry) (registration : Registration)
  (Hreg : Register r registration = Returned r') :
  Types r' ≡ₚ setDefaults registration :: Types r
  /\ length (Types r') = S (length (Types r)).
Proof.
  apply Register_returned in Hreg as (_ & Hfresh & ->).
  assert (Hperm : Types (mkTypeRegistry
                    (<[ToGVK (Type_ registration) := setDefaults registration]>
                       (registrations r)))
                  ≡ₚ setDefaults registration :: Types r).
  { unfold Types. simpl. rewrite (map_to_list_insert _ _ _ Hfresh). reflexivity. }
  split; [exact Hperm|]. rewrite Hperm. reflexivity.
Qed.

Lemma Types_Register_witness :
  length (Types (mkTypeRegistry
            (<[ToGVK demoV2Artist := setDefaults (plainRegistration demoV2Artist NamespaceScope)]>
               (registrations bootRegistry))))
  = S (length (Types bootRegistry)).
Proof.
  apply (Types_Register bootRegistry _ (plainRegistration demoV2Artist NamespaceScope)).
  rewrite (Register_valid _ (plainRegistration demoV2Artist NamespaceScope) eq_refl).
  reflexivity.
Defined.

Lemma Types_keys r :
  wellFormed r ->
  ToGVK <$> (Type_ <$> Types r) = (map_to_list (registrations r)).*1.
Proof.
  intros Hwf. unfold Types. rewrite <- !list_fmap_compose.
  apply Forall_fmap_ext, Forall_forall. intros [key registration] Hin. simpl.
  apply elem_of_map_to_list in Hin. symmetry. apply (Hwf _ _ Hin).
Qed.

(** In a registry obtained from [NewRegistry] by [Register] calls, [Types]
    and [Resolve] agree: a registration is listed exactly when resolving
    its own type returns it; and no two listed registrations have the same
    type. *)
Theorem Types_Resolve_agree (tomb : pbType) (r : TypeRegistry)
  (Hreach : reachable tomb r) :
  (forall registration,
     registration ∈ Types r <-> Resolve r (Type_ registration) = Some registration)
  /\ NoDup (Type_ <$> Types r).
Proof.
  pose proof (reachable_wellFormed _ _ Hreach) as Hwf. split.
  - intros registration. rewrite elem_of_Types. unfold Resolve. split.
    + intros [key Hkey]. destruct (Hwf _ _ Hkey) as (-> & _). exact Hkey.
    + eauto.
  - apply (NoDup_fmap_1 ToGVK). rewrite (Types_keys _ Hwf).
    apply NoDup_fst_map_to_list.
Qed.

Lemma Types_Resolve_agree_witness : NoDup (Type_ <$> Types demoRegistry).
Proof.
  exact (proj2 (Types_Resolve_agree typeV1Tombstone demoRegistry demoRegistry_reachable)).
Defined.

(** ** [NewRegistry] *)

(** [NewRegistry] panics exactly when the tombstone type is ill formed.
    The registry it returns holds the tombstone registration and nothing
    else: [Types] lists that one registration, and no other type
    resolves. *)
Theorem NewRegistry_only_tombstone (tomb : pbType) :
  (panics (NewRegistry tomb) <-> validType tomb = false)
  /\ (forall r, NewRegistry tomb = Returned r ->
        Types r = [setDefaults (tombstoneRegistration tomb)]
        /\ (forall typ, typ <> tomb -> Resolve r typ = None)).
Proof.
  split.
  - destruct (validType tomb) eqn:Hval.
    + rewrite (NewRegistry_valid _ Hval). split; [|discriminate].
      intros [v Hv]. discriminate.
    + split; [reflexivity|]. intros _.
      apply (Register_invalid _ (tombstoneRegistration tomb) Hval).
  - intros r Hnew. pose proof Hnew as (Hval & _ & ->)%Register_returned. split.
    + unfold Types. simpl. rewrite insert_empty, map_to_list_singleton. reflexivity.
    + intros typ Hne. unfold Resolve. simpl.
      rewrite lookup_insert_ne, lookup_empty; [reflexivity|].
      intros Heq. apply Hne.
      apply ToGVK_eq_dotFree; [apply validType_dotFree, Hval|symmetry; exact Heq].
Qed.

Lemma NewRegistry_only_tombstone_witness :
  Types bootRegistry = [setDefaults (tombstoneRegistration typeV1Tombstone)]
  /\ (forall typ, typ <> typeV1Tombstone -> Resolve bootRegistry typ = None).
Proof.
  apply (proj2 (NewRegistry_only_tombstone typeV1Tombstone) bootRegistry).
  apply NewRegistry_valid. reflexivity.
Defined.

(** ** The panics of [Register], in order *)

(** Which panic [Register] raises.  An empty group, group version or kind
    gives the fixed emptiness message, whatever the other fields hold.
    With no field empty, an ill-formed group gives the group message with
    the group as operand, before the other fields are looked at; with
    group and group version well formed, an ill-formed kind gives the kind
    message with the kind as operand.  A well-formed type whose GVK string
    is a key of the registry gives the already-registered message, which
    spells that string out.  No panic carries any other value, and the
    syntax checks come before the duplicate check. *)
Theorem Register_panic_values (r : TypeRegistry) (registration : Registration) :
  let typ := Type_ registration in
  (Group typ = "" \/ GroupVersion typ = "" \/ Kind typ = "" ->
     Register r registration = Panicked (PanicString "type field(s) cannot be empty"))
  /\ (Group typ <> "" -> GroupVersion typ <> "" -> Kind typ <> "" ->
      MatchString groupRegexp (Group typ) = false ->
      Register r registration
      = Panicked (PanicSprintf "Type.Group must be in snake_case. Got: %q" (Group typ)))
  /\ (GroupVersion typ <> "" -> Kind typ <> "" ->
      MatchString groupRegexp (Group typ) = true ->
      MatchString groupVersionRegexp (GroupVersion typ) = true ->
      MatchString kindRegexp (Kind typ) = false ->
      Register r registration
      = Panicked (PanicSprintf "Type.Kind must be in PascalCase. Got: %q" (Kind typ)))
  /\ (validType typ = true ->
      is_Some (registrations r !! ToGVK typ) ->
      Register r registration
      = Panicked (PanicString ("resource type " +:+ ToGVK typ +:+ " already registered"))).
Proof.
  simpl. split; [|split; [|split]].
  - intros Hempty. unfold Register.
    assert (emptyString (Group (Type_ registration))
            || emptyString (GroupVersion (Type_ registration))
            || emptyString (Kind (Type_ registration)) = true) as ->; [|reflexivity].
    rewrite !orb_true_iff, !emptyString_true_iff. tauto.
  - intros Hg Hv Hk Hbad. unfold Register.
    rewrite (emptyString_false _ Hg), (emptyString_false _ Hv), (emptyString_false _ Hk).
    rewrite Hbad. reflexivity.
  - intros Hv Hk Hg Hgv Hbad. unfold Register.
    rewrite (MatchString_nonempty groupRegexp _ eq_refl Hg).
    rewrite (emptyString_false _ Hv), (emptyString_false _ Hk).
    rewrite Hg, Hgv, Hbad. reflexivity.
  - intros Hval [old Hold]. rewrite (Register_valid _ _ Hval), Hold. reflexivity.
Qed.

Lemma Register_panic_values_witness :
  Register bootRegistry (plainRegistration (mkType "Bad" "2" "bad") NamespaceScope)
  = Panicked (PanicSprintf "Type.Group must be in snake_case. Got: %q" "Bad").
Proof.
  apply (proj1 (proj2 (Register_panic_values bootRegistry
                         (plainRegistration (mkType "Bad" "2" "bad") NamespaceScope))));
    (discriminate || reflexivity).
Defined.

(** ** Registrations read back from a registry *)

Lemma setDefaults_fixed registration :
  hooksPresent registration -> setDefaults registration = registration.
Proof.
  intros (rd & wr & ls & v & m & Hacls & Hv & Hm).
  destruct registration as [typ proto acls validate mutate sc]. simpl in *.
  subst acls validate mutate. reflexivity.
Qed.

(** A registration taken from a registry ([Types] or [Resolve]) passes
    through the defaulting of [Register] unchanged: registering it in
    another registry stores it as it is, so registrations can be copied
    from one registry to another without their hooks changing. *)
Theorem Register_stored_registration (tomb : pbType) (r other other' : TypeRegistry)
  (registration : Registration)
  (Hreach : reachable tomb r) (Hin : registration ∈ Types r)
  (Hreg : Register other registration = Returned other') :
  Resolve other' (Type_ registration) = Some registration.
Proof.
  apply elem_of_Types in Hin as [key Hkey].
  destruct (reachable_wellFormed _ _ Hreach _ _ Hkey) as (_ & _ & Hhooks).
  rewrite (Register_resolve _ _ _ Hreg), (setDefaults_fixed _ Hhooks). reflexivity.
Qed.

Lemma Register_stored_registration_witness :
  Resolve (mkTypeRegistry
             (<[ToGVK typeV1Tombstone := setDefaults (tombstoneRegistration typeV1Tombstone)]> ∅))
    typeV1Tombstone
  = Some (setDefaults (tombstoneRegistration typeV1Tombstone)).
Proof.
  apply (Register_stored_registration typeV1Tombstone bootRegistry (mkTypeRegistry ∅) _
           (setDefaults (tombstoneRegistration typeV1Tombstone)) bootRegistry_reachable).
  - apply elem_of_Types. exists (ToGVK typeV1Tombstone). reflexivity.
  - rewrite (Register_valid _ (setDefaults (tombstoneRegistration typeV1Tombstone)) eq_refl).
    reflexivity.
Defined.

(** ** Counters of the tests *)







(** ** Round trip beyond well-formed keys *)

Lemma Split_parts_free s :
  Forall (fun part => allChars notDot part = true) (Split s "."%char).
Proof.
  induction s as [|c s IH]; simpl.
  - constructor; [reflexivity|constructor].
  - destruct (Ascii.eqb c "."%char) eqn:Hc.
    + constructor; [reflexivity|exact IH].
    + destruct (Split s "."%char) as [|p ps]; [repeat constructor|].
      * simpl. unfold notDot. rewrite Hc. reflexivity.
      * inversion IH as [|? ? Hp Hps]; subst. constructor; [|exact Hps].
        simpl. unfold notDot at 1. rewrite Hc. exact Hp.
Qed.

Lemma ParseGVK_dotFree gvk typ : ParseGVK gvk = inl typ -> dotFree typ = true.
Proof.
  unfold ParseGVK. pose proof (Split_parts_free gvk) as Hfree.
  destruct (Split gvk "."%char) as [|g [|v [|k [|x l]]]]; try discriminate.
  intros [= <-]. unfold dotFree. simpl.
  inversion Hfree as [|? ? Hg Hrest]; subst.
  inversion Hrest as [|? ? Hv Hrest']; subst.
  inversion Hrest' as [|? ? Hk _]; subst.
  rewrite Hg, Hv, Hk. reflexivity.
Qed.

(** The type keys that survive formatting and parsing are exactly those
    whose components hold no dot, empty components included; what
    [ParseGVK] returns is always such a key. *)
Theorem ParseGVK_ToGVK_exactly (typ : pbType) :
  (ParseGVK (ToGVK typ) = inl typ <-> dotFree typ = true)
  /\ (forall gvk parsed, ParseGVK gvk = inl parsed -> dotFree parsed = true).
Proof.
  split; [|exact ParseGVK_dotFree]. split.
  - apply ParseGVK_dotFree.
  - unfold dotFree. rewrite !andb_true_iff. intros [[Hg Hv] Hk].
    unfold ParseGVK. rewrite ToGVK_Split.
    rewrite (Split_single _ Hg), (Split_single _ Hv), (Split_single _ Hk).
    destruct typ. reflexivity.
Qed.

(** ** What [Register] stores for a hook that was left out *)

(** The registration stored by a returning [Register] keeps the type, the
    message and the scope it was given.  A [Read] hook that was left out
    becomes the operator-read check, which does not look at the identity;
    a [Write] hook that was left out becomes the operator-write check,
    which does not look at the resource; a [Validate] hook that was left
    out accepts every resource and a [Mutate] hook that was left out
    returns every resource untouched, without error. *)
Theorem Register_omitted_hooks (r r' : TypeRegistry) (registration : Registration)
  (Hreg : Register r registration = Returned r') :
  exists stored rd wr v m,
    Resolve r' (Type_ registration) = Some stored
    /\ Type_ stored = Type_ registration
    /\ Proto stored = Proto registration
    /\ scope stored = scope registration
    /\ ACLs stored ≫= Read = Some rd
    /\ ACLs stored ≫= Write = Some wr
    /\ Validate stored = Some v
    /\ Mutate stored = Some m
    /\ (ACLs registration ≫= Read = None ->
        forall authz authzContext id,
          rd authz authzContext id = OperatorReadAllowed authz authzContext)
    /\ (ACLs registration ≫= Write = None ->
        forall authz authzContext resource,
          wr authz authzContext resource = OperatorWriteAllowed authz authzContext)
    /\ (Validate registration = None -> forall resource, v resource = None)
    /\ (Mutate registration = None -> forall resource, m resource = (resource, None)).
Proof.
  exists (setDefaults registration),
    (default defaultRead (ACLs registration ≫= Read)),
    (default defaultWrite (ACLs registration ≫= Write)),
    (default defaultValidate (Validate registration)),
    (default defaultMutate (Mutate registration)).
  split; [apply (Register_resolve _ _ _ Hreg)|].
  simpl. rewrite setDefaultACLs_eq. simpl.
  repeat (split; [reflexivity|]).
  split; [destruct (Validate registration); reflexivity|].
  split; [destruct (Mutate registration); reflexivity|].
  split; [intros ->; reflexivity|].
  split; [intros ->; reflexivity|].
  split; intros ->; reflexivity.
Qed.

Lemma Register_omitted_hooks_witness :
  exists stored rd wr v m,
    Resolve demoRegistry demoV1Executive = Some stored
    /\ Type_ stored = demoV1Executive
    /\ Proto stored = NamedMessage "Executive"
    /\ scope stored = ClusterScope
    /\ ACLs stored ≫= Read = Some rd
    /\ ACLs stored ≫= Write = Some wr
    /\ Validate stored = Some v
    /\ Mutate stored = Some m
    /\ (@None ACLAuthorizeReadHook = None ->
        forall authz authzContext id,
          rd authz authzContext id = OperatorReadAllowed authz authzContext)
    /\ (@None ACLAuthorizeWriteHook = None ->
        forall authz authzContext resource,
          wr authz authzContext resource = OperatorWriteAllowed authz authzContext)
    /\ (@None ValidationHook = None -> forall resource, v resource = None)
    /\ (@None MutationHook = None -> forall resource, m resource = (resource, None)).
Proof.
  apply (Register_omitted_hooks
           (mkTypeRegistry (delete (ToGVK demoV1Executive) (registrations demoRegistry)))
           demoRegistry (plainRegistration demoV1Executive ClusterScope)).
  rewrite (Register_valid _ (plainRegistration demoV1Executive ClusterScope) eq_refl).
  reflexivity.
Defined.

(** ** Registrations are write-once *)

(** A [Register] call that returns found no registration for its type,
    and every type that resolved before it resolves after it to the same
    registration: [Register] never overwrites or removes an entry. *)
Theorem Register_never_overwrites (r r' : TypeRegistry) (registration : Registration)
  (Hreg : Register r registration = Returned r') :
  Resolve r (Type_ registration) = None
  /\ (forall typ old, Resolve r typ = Some old -> Resolve r' typ = Some old).
Proof.
  split.
  - apply Register_returned in Hreg as (_ & Hfresh & _). exact Hfresh.
  - intros typ old Hold. exact (Register_preserves _ _ _ _ _ Hreg Hold).
Qed.

Lemma Register_never_overwrites_witness :
  Resolve bootRegistry demoV2Artist = None
  /\ (forall typ old,
        Resolve bootRegistry typ = Some old ->
        Resolve (mkTypeRegistry
                   (<[ToGVK demoV2Artist :=
                        setDefaults (plainRegistration demoV2Artist NamespaceScope)]>
                      (registrations bootRegistry))) typ = Some old).
Proof.
  apply (Register_never_overwrites bootRegistry _
           (plainRegistration demoV2Artist NamespaceScope)).
  rewrite (Register_valid _ (plainRegistration demoV2Artist NamespaceScope) eq_refl).
  reflexivity.
Defined.
